(** * BeeOS: the device filesystem (devfs) and the mknod system call

    A shallow embedding of [kernel/src/fs/devfs.c] and
    [kernel/src/sys/sys_mknod.c].

    - C strings are lists of characters (the characters before the
      terminating NUL); indexing one position past the end reads the
      terminator, indexing further is an out-of-bounds read.
    - Machine integers are [Z] with the conversions written out.
    - Undefined behaviour of the C code (out-of-bounds access, null
      dereference, signed overflow, use of an indeterminate pointer) is the
      outcome [Undefined].
    - Constants, types and functions that come from headers outside the two
      files ([<limits.h>], [<errno.h>], [dev.h], [vfs.h], the drivers) are
      parameters: the classes [Platform] and [Drivers], and the calls of
      [SysMknod.call]. *)

From Stdlib Require Import ZArith String Ascii Strings.Byte Bool List Sorted Lia.
Import ListNotations.

Set Implicit Arguments.
Open Scope Z_scope.

(** ** Outcomes and the error monad of C code *)

Inductive outcome (A : Type) : Type :=
| Ok (a : A)
| Undefined.

Arguments Ok {A} a.
Arguments Undefined {A}.

Definition obind {A B : Type} (m : outcome A) (f : A -> outcome B) : outcome B :=
  match m with
  | Ok a => f a
  | Undefined => Undefined
  end.

Notation "x <- m ;; k" := (obind m (fun x => k))
  (at level 61, m at next level, right associativity).
Notation "' pat <- m ;; k" := (obind m (fun x => match x with pat => k end))
  (at level 61, pat pattern, m at next level, right associativity).

(** ** What the headers fix

    [PATH_MAX] and [NAME_MAX] size the two buffers of [sys_mknod];
    [SIZE_BITS] is the width of [size_t] and [ssize_t]; the [DEV_] numbers
    are the case labels of the dispatch switches; [D_NAME_LEN] is
    [sizeof(dent->d_name)]. *)

Class Platform : Type := {
  PATH_MAX : nat;
  NAME_MAX : nat;
  EEXIST : Z;
  ENODEV : Z;
  SIZE_BITS : Z;
  DEV_TTY : Z;
  DEV_CONSOLE : Z;
  DEV_CONSOLE1 : Z;
  DEV_CONSOLE2 : Z;
  DEV_CONSOLE3 : Z;
  DEV_CONSOLE4 : Z;
  DEV_INITRD : Z;
  DEV_ZERO : Z;
  DEV_NULL : Z;
  S_IFDIR : Z;
  D_NAME_LEN : nat
}.

(** [int] is 32 bits wide on every target of the kernel. *)
Definition INT_MAX : Z := 2147483647.

Definition SSIZE_MAX {P : Platform} : Z := 2 ^ (SIZE_BITS - 1) - 1.
Definition SIZE_MAX {P : Platform} : Z := 2 ^ SIZE_BITS - 1.

(** The conversion of a [size_t] value to [ssize_t] ([n = count]): values
    above [SSIZE_MAX] wrap around modulo [2 ^ SIZE_BITS]. *)
Definition to_ssize {P : Platform} (count : Z) : Z :=
  if count <=? SSIZE_MAX then count else count - 2 ^ SIZE_BITS.

(** The labels of the two dispatch switches, in the order of the source.  A
    C switch needs them pairwise distinct. *)
Definition case_labels {P : Platform} : list Z :=
  [DEV_TTY; DEV_CONSOLE; DEV_CONSOLE1; DEV_CONSOLE2; DEV_CONSOLE3;
   DEV_CONSOLE4; DEV_INITRD; DEV_ZERO; DEV_NULL].

(** A 32-bit target with the device numbers laid out major/minor; used to
    run the model on concrete inputs. *)
Definition ia32 : Platform := {|
  PATH_MAX := 4096;
  NAME_MAX := 255;
  EEXIST := 17;
  ENODEV := 19;
  SIZE_BITS := 32;
  DEV_TTY := 0x0500;
  DEV_CONSOLE := 0x0501;
  DEV_CONSOLE1 := 0x0401;
  DEV_CONSOLE2 := 0x0402;
  DEV_CONSOLE3 := 0x0403;
  DEV_CONSOLE4 := 0x0404;
  DEV_INITRD := 0x0100;
  DEV_ZERO := 0x0105;
  DEV_NULL := 0x0103;
  S_IFDIR := 0x4000;
  D_NAME_LEN := 256
|}.

(** ** C strings and character arrays *)

Module CString.

Definition cstring : Type := list ascii.

Definition NUL : ascii := Ascii.zero.
Definition SLASH : ascii := "/"%char.
Definition DOT : ascii := "."%char.

Definition lit (s : string) : cstring := list_ascii_of_string s.

(** [s[i]]: the terminator sits at index [strlen(s)]; nothing of the
    string lies beyond it. *)
Definition char_at (s : cstring) (i : nat) : outcome ascii :=
  if (i <? length s)%nat then Ok (nth i s NUL)
  else if (i =? length s)%nat then Ok NUL
  else Undefined.

(** [strcmp(a, b) == 0] *)
Fixpoint strcmp_eq (a b : cstring) : bool :=
  match a, b with
  | [], [] => true
  | c :: a', d :: b' => Ascii.eqb c d && strcmp_eq a' b'
  | _, _ => false
  end.

(** Storing the string [s] and its terminator in a buffer of [cap]
    characters: [strcpy(buf, s)], or [strncpy] followed by the write of
    the terminator. *)
Definition store (cap : nat) (s : cstring) : outcome cstring :=
  if (length s <? cap)%nat then Ok s else Undefined.

(** [strncpy(field, s, n)] into an array of exactly [n] characters: the
    first [n] characters of [s], padded with NUL; no terminator when [s]
    has [n] characters or more. *)
Definition strncpy (n : nat) (s : cstring) : list ascii :=
  firstn n (s ++ repeat NUL n).

(** Reading a character array as a string: up to the first NUL. *)
Fixpoint read_array (a : list ascii) : cstring :=
  match a with
  | [] => []
  | c :: a' => if Ascii.eqb c NUL then [] else c :: read_array a'
  end.

End CString.
Import CString.

(** ** [sys_mknod.c] *)

Module SysMknod.

(** The loop of [split_path]:
    [while (i > 0) { i--; if (filepath[i] == '/') break; }]
    started at [i]; the result is the final value of [i]. *)
Fixpoint scan_back (filepath : cstring) (i : nat) : nat :=
  match i with
  | O => O
  | S j => if Ascii.eqb (nth j filepath NUL) SLASH then j
           else scan_back filepath j
  end.

(** [split_path(filepath, parent, name)]: the strings left in the buffers
    [parent] (of [PATH_MAX] characters) and [name] (of [NAME_MAX]). *)
Definition split_path {P : Platform} (filepath : cstring)
  : outcome (cstring * cstring) :=
  (* int i = strlen(filepath): a length above INT_MAX does not fit i *)
  if INT_MAX <? Z.of_nat (length filepath) then Undefined else
  let i := scan_back filepath (length filepath) in
  if (0 <? i)%nat then
    (* int k: 1 when filepath[0] is the separator, else 0 *)
    let k := if Ascii.eqb (nth 0 filepath NUL) SLASH then 1%nat else 0%nat in
    (* strncpy(parent, filepath, i), closed by parent[i] = '\0' below *)
    parent <- store PATH_MAX (firstn i filepath) ;;
    (* strcpy(name, filepath + i + k) *)
    name <- store NAME_MAX (skipn (i + k) filepath) ;;
    Ok (parent, name)
  else
    (* parent[i++] = '/', closed by parent[1] = '\0' below *)
    parent <- store PATH_MAX [SLASH] ;;
    (* the test reads filepath[1] *)
    c <- char_at filepath 1 ;;
    name <- (if Ascii.eqb c NUL then store NAME_MAX [DOT]
             else store NAME_MAX (skipn 1 filepath)) ;;
    Ok (parent, name).

(** The naming layer of [vfs.h]: a directory entry is known by its
    address and gives the address of its inode ([dentry->inod]). *)
Record dentry : Type := mk_dentry { d_addr : Z; inod : Z }.

(** The calls that leave the file. *)
Inductive call : Type -> Type :=
| named (path : cstring) : call (option dentry)
| vfs_mknod (idir : Z) (mode dev : Z) : call Z
| dget (d : option dentry) : call unit.

(** Code of the file, with its calls left open. *)
Inductive prog (A : Type) : Type :=
| Ret (a : A)
| Crash
| Do (X : Type) (c : call X) (k : X -> prog A).

Arguments Ret {A} a.
Arguments Crash {A}.
Arguments Do {A X} c k.

Notation "x <~ c ;; k" := (Do c (fun x => k))
  (at level 61, c at next level, right associativity).

Definition sys_mknod {P : Platform} (pathname : cstring) (mode dev : Z) : prog Z :=
  dentry <~ named pathname ;;
  match dentry with
  | Some _ => Ret (- EEXIST)
  | None =>
    match split_path pathname with
    | Undefined => Crash
    | Ok (parent, name) =>
      dentry <~ named parent ;;
      match dentry with
      | None => Ret (-1)
      | Some de =>
        let idir := inod de in
        res <~ vfs_mknod idir mode dev ;;
        if res =? 0 then
          dchild <~ named pathname ;;
          let res := match dchild with None => -1 | Some _ => res end in
          _ <~ dget dchild ;;
          Ret res
        else Ret res
      end
    end
  end.

(** What a run did outside the file, in order. *)
Inductive event : Type :=
| EvNamed (path : cstring) (res : option dentry)
| EvMknod (idir mode dev : Z) (res : Z)
| EvDget (d : option dentry).

(** An implementation of the calls over a state [W] of the rest of the
    kernel. *)
Record kernel (W : Type) : Type := {
  k_named : cstring -> W -> option dentry * W;
  k_vfs_mknod : Z -> Z -> Z -> W -> Z * W;
  k_dget : option dentry -> W -> W
}.

Definition perform {W X : Type} (K : kernel W) (c : call X) (w : W)
  : X * W * event :=
  match c in call T return T * W * event with
  | named path =>
      let (r, w') := k_named K path w in (r, w', EvNamed path r)
  | vfs_mknod idir mode dev =>
      let (r, w') := k_vfs_mknod K idir mode dev w in
      (r, w', EvMknod idir mode dev r)
  | dget d => (tt, k_dget K d w, EvDget d)
  end.

(** A run: the result ([Undefined] when the code crashed), the final
    state of the kernel and the calls made. *)
Fixpoint exec {W A : Type} (K : kernel W) (p : prog A) (w : W)
  : outcome A * W * list event :=
  match p with
  | Ret a => (Ok a, w, [])
  | Crash => (Undefined, w, [])
  | Do c k =>
      let '(x, w', e) := perform K c w in
      let '(r, w'', t) := exec K (k x) w' in
      (r, w'', e :: t)
  end.

Definition is_mknod (e : event) : bool :=
  match e with EvMknod _ _ _ _ => true | _ => false end.

Definition is_dget (e : event) : bool :=
  match e with EvDget _ => true | _ => false end.

End SysMknod.

(** ** [devfs.c] *)

(** The terminal and ramdisk drivers, with their state [drv].  A read
    returns the count and the new contents of the buffer. *)
Class Drivers : Type := {
  drv : Type;
  tty_read : Z -> list byte -> Z -> drv -> outcome (Z * list byte * drv);
  tty_write : Z -> list byte -> Z -> drv -> outcome (Z * drv);
  ramdisk_read : list byte -> Z -> Z -> drv -> outcome (Z * list byte * drv);
  ramdisk_write : list byte -> Z -> Z -> drv -> outcome (Z * drv)
}.

(** Drivers that transfer nothing; used to run the model. *)
Definition idle_drivers : Drivers := {|
  drv := unit;
  tty_read := fun _ buf _ s => Ok (0, buf, s);
  tty_write := fun _ _ _ s => Ok (0, s);
  ramdisk_read := fun buf _ _ s => Ok (0, buf, s);
  ramdisk_write := fun _ _ _ s => Ok (0, s)
|}.

Module Devfs.

(** The fields of [struct inode] that the file reads or writes ([ops]
    and [sb] are the same for every node). *)
Record inode : Type := mk_inode { i_ino : Z; i_dev : Z; i_mode : Z }.

(** A [struct inode *]: not yet assigned, null, or the address of a
    node. *)
Inductive pointer : Type :=
| Indeterminate
| NULL
| Ptr (a : Z).

(** The list [devfs_nodes], from [devfs_nodes.next] on: each node with
    its address. *)
Definition registry : Type := list (Z * inode).

Record root_dentry : Type := mk_root { rd_name : cstring; rd_inode : Z }.

(** The statics of the file: [devfs_nodes], the counter [ino] of
    [devfs_sb_inode_alloc], the root entry of [devfs_sb], and whether
    [list_init(&devfs_nodes)] has run: until then the head of the list
    holds the null links that a static starts with, and [devfs_nodes]
    here means nothing. *)
Record devfs : Type := mk_devfs {
  devfs_nodes : registry;
  ino : Z;
  devfs_sb : option root_dentry;
  linked : bool
}.

(** The node [x] of the registry carries the device identifier [dev]. *)
Definition carries (dev : Z) (x : Z * inode) : Prop := i_dev (snd x) = dev.

Fixpoint deref (nodes : registry) (a : Z) : option inode :=
  match nodes with
  | [] => None
  | (b, nd) :: rest => if b =? a then Some nd else deref rest a
  end.

(** A store through a pointer to a node: [p->field = v]. *)
Fixpoint update (a : Z) (f : inode -> inode) (nodes : registry) : registry :=
  match nodes with
  | [] => []
  | (b, nd) :: rest =>
      if b =? a then (b, f nd) :: rest else (b, nd) :: update a f rest
  end.

(** [memset(buf, c, count)] on a buffer object [buf]. *)
Definition memset (buf : list byte) (c : byte) (count : Z)
  : outcome (list byte) :=
  if count <=? Z.of_nat (length buf)
  then Ok (repeat c (Z.to_nat count) ++ skipn (Z.to_nat count) buf)
  else Undefined.

Definition is_tty {P : Platform} (dev : Z) : bool :=
  (dev =? DEV_TTY) || (dev =? DEV_CONSOLE) || (dev =? DEV_CONSOLE1)
  || (dev =? DEV_CONSOLE2) || (dev =? DEV_CONSOLE3) || (dev =? DEV_CONSOLE4).

Definition devfs_inode_read {P : Platform} {D : Drivers}
    (inode : inode) (buf : list byte) (count offset : Z) (s : drv)
  : outcome (Z * list byte * drv) :=
  let dev := i_dev inode in
  if is_tty dev then tty_read dev buf count s
  else if dev =? DEV_INITRD then ramdisk_read buf count offset s
  else if dev =? DEV_ZERO then
    buf' <- memset buf x00 count ;;
    Ok (to_ssize count, buf', s)
  else if dev =? DEV_NULL then Ok (to_ssize count, buf, s)
  else Ok (- ENODEV, buf, s).

Definition devfs_inode_write {P : Platform} {D : Drivers}
    (inode : inode) (buf : list byte) (count offset : Z) (s : drv)
  : outcome (Z * drv) :=
  let dev := i_dev inode in
  if is_tty dev then tty_write dev buf count s
  else if dev =? DEV_INITRD then ramdisk_write buf count offset s
  else if (dev =? DEV_ZERO) || (dev =? DEV_NULL) then Ok (to_ssize count, s)
  else Ok (- ENODEV, s).

Definition dev_name_map {P : Platform} : list (cstring * Z) :=
  [ (lit "zero", DEV_ZERO);
    (lit "tty1", DEV_CONSOLE1);
    (lit "tty2", DEV_CONSOLE2);
    (lit "tty3", DEV_CONSOLE3);
    (lit "tty4", DEV_CONSOLE4);
    (lit "initrd", DEV_INITRD) ].

(** The loop of [name_to_dev] over the rows that are left. *)
Fixpoint name_to_dev_from (rows : list (cstring * Z)) (name : cstring)
    (dev : Z) : Z :=
  match rows with
  | [] => dev
  | (n, d) :: rest =>
      if strcmp_eq n name then d else name_to_dev_from rest name dev
  end.

Definition name_to_dev {P : Platform} (name : cstring) : Z :=
  name_to_dev_from dev_name_map name 0xFFFF.

(** The loop of [devfs_lookup]: [inode] is set on a match only. *)
Fixpoint lookup_from (curr_link : registry) (dev : Z) (inode : pointer)
  : pointer :=
  match curr_link with
  | [] => inode
  | (a, curr) :: rest =>
      if i_dev curr =? dev then Ptr a else lookup_from rest dev inode
  end.

Definition devfs_lookup {P : Platform} (nodes : registry) (dir : pointer)
    (name : cstring) : pointer :=
  if strcmp_eq name (lit ".") || strcmp_eq name (lit "..") then dir
  else lookup_from nodes (name_to_dev name) NULL.

(** The loop of [dev_to_inode]: [inode] is set at every node visited. *)
Fixpoint dev_to_inode_from (curr : registry) (dev : Z) (inode : pointer)
  : pointer :=
  match curr with
  | [] => inode
  | (a, nd) :: rest =>
      if i_dev nd =? dev then Ptr a else dev_to_inode_from rest dev (Ptr a)
  end.

(** [inode] starts without a value. *)
Definition dev_to_inode (nodes : registry) (dev : Z) : pointer :=
  dev_to_inode_from nodes dev Indeterminate.

Definition devfs_read {P : Platform} {D : Drivers} (nodes : registry)
    (dev : Z) (buf : list byte) (size off : Z) (s : drv)
  : outcome (Z * list byte * drv) :=
  match dev_to_inode nodes dev with
  | Indeterminate => Undefined
  | NULL => Ok (-1, buf, s)
  | Ptr a =>
      match deref nodes a with
      | Some inode => devfs_inode_read inode buf size off s
      | None => Undefined
      end
  end.

Definition devfs_write {P : Platform} {D : Drivers} (nodes : registry)
    (dev : Z) (buf : list byte) (size off : Z) (s : drv)
  : outcome (Z * drv) :=
  match dev_to_inode nodes dev with
  | Indeterminate => Undefined
  | NULL => Ok (-1, s)
  | Ptr a =>
      match deref nodes a with
      | Some inode => devfs_inode_write inode buf size off s
      | None => Undefined
      end
  end.

(** Modelled from the spec: [inode_init] of [vfs.h] is not part of the
    two files; a node is created with its sequence number, a device
    identifier and a mode tag, and the call passes the device identifier 0
    and the value of [ino++]. *)
Definition inode_init (dev ino : Z) : inode :=
  {| i_ino := ino; i_dev := dev; i_mode := 0 |}.

(** [devfs_sb_inode_alloc()]; [kmalloc] is what the allocator returns,
    an address or null.  The increment of the [int] counter overflows at
    [INT_MAX], and [list_insert_before] writes through the links of the
    head, which are null before [list_init]. *)
Definition devfs_sb_inode_alloc (kmalloc : option Z) (fs : devfs)
  : outcome (pointer * devfs) :=
  match kmalloc with
  | None => Ok (NULL, fs)
  | Some a =>
      if ino fs <? INT_MAX then
        if linked fs then
          Ok (Ptr a,
              {| devfs_nodes := devfs_nodes fs ++ [(a, inode_init 0 (ino fs))];
                 ino := ino fs + 1;
                 devfs_sb := devfs_sb fs;
                 linked := true |})
        else Undefined
      else Undefined
  end.

(** [list_delete(&inode->link)]: the node at [a] is unlinked.  The code
    has no test that the node is in the list: on a node that is not, it
    writes through whatever the links of that node hold. *)
Fixpoint list_delete (a : Z) (nodes : registry) : outcome registry :=
  match nodes with
  | [] => Undefined
  | (b, nd) :: rest =>
      if b =? a then Ok rest
      else rest' <- list_delete a rest ;; Ok ((b, nd) :: rest')
  end.

(** [devfs_sb_inode_free(inode)] for the node at [a]. *)
Definition devfs_sb_inode_free (a : Z) (fs : devfs) : outcome devfs :=
  if linked fs then
    nodes <- list_delete a (devfs_nodes fs) ;;
    Ok {| devfs_nodes := nodes;
          ino := ino fs;
          devfs_sb := devfs_sb fs;
          linked := true |}
  else Undefined.

Definition set_mode (m : Z) (nd : inode) : inode :=
  {| i_ino := i_ino nd; i_dev := i_dev nd; i_mode := m |}.

Definition set_dev (d : Z) (nd : inode) : inode :=
  {| i_ino := i_ino nd; i_dev := d; i_mode := i_mode nd |}.

(** [devfs_sb_create(dev)]: the list is emptied, the root is allocated
    and stored through without a check for null. *)
Definition devfs_sb_create {P : Platform} (dev : Z) (kmalloc : option Z)
    (fs : devfs) : outcome devfs :=
  (* list_init(&devfs_nodes) *)
  let fs0 := {| devfs_nodes := []; ino := ino fs; devfs_sb := devfs_sb fs;
                linked := true |} in
  '(root, fs1) <- devfs_sb_inode_alloc kmalloc fs0 ;;
  match root with
  | Ptr a =>
      let nodes1 := update a (set_mode S_IFDIR) (devfs_nodes fs1) in
      let nodes2 := update a (set_dev dev) nodes1 in
      Ok {| devfs_nodes := nodes2;
            ino := ino fs1;
            devfs_sb := Some {| rd_name := lit "/"; rd_inode := a |};
            linked := true |}
  | _ => Undefined
  end.

(** The state of the file before anything ran: the counter at 0 and the
    list not yet initialised. *)
Definition boot : devfs :=
  {| devfs_nodes := []; ino := 0; devfs_sb := None; linked := false |}.

(** The sequence number given by an allocation that returned [p] and
    left the state [fs]: the one of the node at the tail. *)
Definition assigned (p : pointer) (fs : devfs) : list Z :=
  match p with
  | Ptr _ => match rev (devfs_nodes fs) with
             | (_, nd) :: _ => [i_ino nd]
             | [] => []
             end
  | _ => []
  end.

(** The calls that reach the allocator during the life of the kernel:
    [devfs_sb_create], [devfs_sb_inode_alloc] and [devfs_sb_inode_free]. *)
Inductive request : Type :=
| Mount (dev : Z) (kmalloc : option Z)
| Alloc (kmalloc : option Z)
| Free (a : Z).

(** A history of requests: the final state and the sequence numbers
    given, oldest first. *)
Fixpoint serve {P : Platform} (reqs : list request) (fs : devfs)
  : outcome (devfs * list Z) :=
  match reqs with
  | [] => Ok (fs, [])
  | Mount dev kmalloc :: rest =>
      fs1 <- devfs_sb_create dev kmalloc fs ;;
      '(fs2, given) <- serve rest fs1 ;;
      Ok (fs2, assigned (match kmalloc with Some a => Ptr a | None => NULL end) fs1
               ++ given)
  | Alloc kmalloc :: rest =>
      '(p, fs1) <- devfs_sb_inode_alloc kmalloc fs ;;
      '(fs2, given) <- serve rest fs1 ;;
      Ok (fs2, assigned p fs1 ++ given)
  | Free a :: rest =>
      fs1 <- devfs_sb_inode_free a fs ;;
      serve rest fs1
  end.

(** The requests of a history that get memory from [kmalloc]. *)
Definition allocations (reqs : list request) : Z :=
  Z.of_nat (length (filter (fun r => match r with
                                     | Alloc (Some _) => true
                                     | Mount _ (Some _) => true
                                     | _ => false
                                     end) reqs)).

(** [n] times: a node is allocated at [a] and freed again. *)
Definition churn (a : Z) (n : nat) : list request :=
  concat (repeat [Alloc (Some a); Free a] n).

(** *** Directory iteration *)

(** An entry of a child list: [curr->name] and [curr->inode->ino]. *)
Record child : Type := mk_child { c_name : cstring; c_ino : Z }.

(** The child list of the directory entry at each address, from
    [child.next] on. *)
Definition dirs : Type := Z -> list child.

(** A [struct list_link *] into a child list: [(d, k)] is the link of
    the [k]-th child of the directory at [d], and [&d->child] itself when
    [k] is the length of the list. *)
Definition link : Type := (Z * nat)%type.

Record dirent : Type := mk_dirent { d_ino : Z; d_name : list ascii }.

(** The end of [devfs_dentry_readdir]: [if (name) ...; return res]. *)
Definition deliver {P : Platform} (name : option cstring) (dent : dirent)
    (curr_link : option link) : outcome (Z * dirent * option link) :=
  match name with
  | Some n =>
      Ok (0, {| d_ino := d_ino dent; d_name := strncpy D_NAME_LEN n |},
          curr_link)
  | None => Ok (-1, dent, curr_link)
  end.

(** [devfs_dentry_readdir(dir, i, dent)] with the static [curr_link]
    passed in and out ([None] is the null pointer it starts with). *)
Definition devfs_dentry_readdir {P : Platform} (T : dirs) (dir : Z) (i : Z)
    (dent : dirent) (curr_link : option link)
  : outcome (Z * dirent * option link) :=
  if i =? 0 then deliver (Some (lit ".")) dent curr_link
  else if i =? 1 then deliver (Some (lit "..")) dent curr_link
  else
    let curr_link := if i =? 2 then Some (dir, 0%nat) else curr_link in
    match curr_link with
    | None => Undefined
    | Some (d, k) =>
        if (d =? dir) && (k =? length (T dir))%nat
        then deliver None dent curr_link
        else
          match nth_error (T d) k with
          | Some curr =>
              deliver (Some (c_name curr))
                      {| d_ino := c_ino curr; d_name := d_name dent |}
                      (Some (d, S k))
          | None => Undefined
          end
    end.

(** The entry that a call leaves in [dent] for the child [c]. *)
Definition entry_of {P : Platform} (c : child) : dirent :=
  {| d_ino := c_ino c; d_name := strncpy D_NAME_LEN (c_name c) |}.

(** A caller that lists a directory: [n] calls with the indices [i],
    [i + 1], ...; the status and the entry of each call. *)
Fixpoint listing {P : Platform} (T : dirs) (dir : Z) (i : Z) (n : nat)
    (dent : dirent) (curr_link : option link)
  : outcome (list (Z * dirent)) :=
  match n with
  | O => Ok []
  | S m =>
      '(res, dent', curr_link') <-
        devfs_dentry_readdir T dir i dent curr_link ;;
      rest <- listing T dir (i + 1) m dent' curr_link' ;;
      Ok ((res, dent') :: rest)
  end.

End Devfs.

Import SysMknod.
Import Devfs.

(** ** Views of the registry *)

(** The addresses of the live nodes, in list order. *)
Definition addresses (nodes : registry) : list Z := map fst nodes.

(** The sequence numbers of the live nodes, in list order. *)
Definition live_inos (nodes : registry) : list Z :=
  map (fun x => i_ino (snd x)) nodes.

(** The live nodes have pairwise distinct sequence numbers, all below the
    counter. *)
Definition numbered (fs : devfs) : Prop :=
  NoDup (live_inos (devfs_nodes fs))
  /\ Forall (fun n => n < ino fs) (live_inos (devfs_nodes fs)).

(** The identifiers that [dev_name_map] gives a name to. *)
Definition named_devs {P : Platform} : list Z := map snd dev_name_map.

(** ** Concrete inputs *)

(** A kernel to run [sys_mknod] on: the state counts the nodes made by
    [vfs_mknod] and the references taken by [dget]; only the root and
    "/dev" resolve, and a node made by [vfs_mknod] is never linked under a
    name. *)
Definition stub_kernel : kernel (nat * nat) := {|
  k_named := fun path w =>
    if strcmp_eq path (lit "/") then (Some (mk_dentry 1 10), w)
    else if strcmp_eq path (lit "/dev") then (Some (mk_dentry 2 20), w)
    else (None, w);
  k_vfs_mknod := fun _ _ _ w => (0, (S (fst w), snd w));
  k_dget := fun _ w => (fst w, S (snd w))
|}.

(** A kernel in which [vfs_mknod] links what it makes: the state counts
    the nodes made, and "/dev/zero" resolves once one was made. *)
Definition linking_kernel : kernel nat := {|
  k_named := fun path w =>
    if strcmp_eq path (lit "/") then (Some (mk_dentry 1 10), w)
    else if strcmp_eq path (lit "/dev") then (Some (mk_dentry 2 20), w)
    else if strcmp_eq path (lit "/dev/zero") && (0 <? w)%nat
         then (Some (mk_dentry 3 30), w)
    else (None, w);
  k_vfs_mknod := fun _ _ _ w => (0, S w);
  k_dget := fun _ w => w
|}.

(** A kernel in which [vfs_mknod] fails with -12 and makes nothing. *)
Definition failing_kernel : kernel nat := {|
  k_named := fun path w =>
    if strcmp_eq path (lit "/dev") then (Some (mk_dentry 2 20), w)
    else (None, w);
  k_vfs_mknod := fun _ _ _ w => (-12, w);
  k_dget := fun _ w => S w
|}.

(** Membership in an explicit list of events, case by case. *)
Ltac in_events H :=
  simpl in H;
  repeat (destruct H as [H|H];
          [try discriminate H; try (injection H; intros; subst) | ]);
  try contradiction.

(** Distinctness of a concrete list of case labels. *)
Ltac labels_distinct :=
  unfold case_labels; simpl;
  repeat (constructor; [simpl; intuition discriminate|]); constructor.

(** * Properties *)

Unset Implicit Arguments.

(** ** Path splitting *)

Section SplitPathFacts.

Context {P : Platform}.

Lemma scan_back_no_sep (s : cstring) (n : nat) :
  ~ In SLASH s -> (n <= length s)%nat -> scan_back s n = 0%nat.
Proof.
  intros Hs. induction n as [|n IH]; intros Hn; [reflexivity|].
  simpl. destruct (Ascii.eqb_spec (nth n s NUL) SLASH) as [E|_].
  - exfalso. apply Hs. rewrite <- E. apply nth_In. lia.
  - apply IH. lia.
Qed.

(** The loop stops at the last separator. *)
Lemma scan_back_last_sep (pre post : cstring) (n : nat) :
  ~ In SLASH post -> (n <= length post)%nat ->
  scan_back (pre ++ SLASH :: post) (S (length pre + n)) = length pre.
Proof.
  intros Hpost. induction n as [|n IH]; intros Hn.
  - simpl. rewrite Nat.add_0_r, nth_middle. reflexivity.
  - cbn [scan_back].
    replace (length pre + S n)%nat with (S (length pre + n)) by lia.
    destruct (Ascii.eqb_spec (nth (S (length pre + n)) (pre ++ SLASH :: post) NUL) SLASH)
      as [E|_].
    + exfalso. apply Hpost. rewrite <- E.
      rewrite app_nth2 by lia.
      replace (S (length pre + n) - length pre)%nat with (S n) by lia.
      simpl. apply nth_In. lia.
    + apply IH. lia.
Qed.

Lemma scan_back_split (pre post : cstring) :
  ~ In SLASH post ->
  scan_back (pre ++ SLASH :: post) (length (pre ++ SLASH :: post)) = length pre.
Proof.
  intros Hpost. rewrite length_app. simpl.
  replace (length pre + S (length post))%nat
    with (S (length pre + length post)) by lia.
  apply scan_back_last_sep; auto.
Qed.

Lemma store_fits (cap : nat) (s : cstring) :
  (length s < cap)%nat -> store cap s = Ok s.
Proof.
  intros H. unfold store. destruct (Nat.ltb_spec (length s) cap); [reflexivity|lia].
Qed.

(** On a path that starts with the separator and has no other, the parent
    is the root and the leaf is what follows the separator, or "." when
    nothing follows. *)
Lemma split_path_root_child (leaf : cstring) :
  ~ In SLASH leaf -> ~ In NUL leaf ->
  (length leaf < NAME_MAX)%nat -> (1 < NAME_MAX)%nat -> (1 < PATH_MAX)%nat ->
  Z.of_nat (length leaf) < INT_MAX ->
  split_path (SLASH :: leaf)
  = Ok ([SLASH], match leaf with [] => [DOT] | _ => leaf end).
Proof.
  intros Hsep Hnul Hname Hn1 Hp1 Hint. unfold split_path.
  destruct (Z.ltb_spec INT_MAX (Z.of_nat (length (SLASH :: leaf)))) as [Hlen|_].
  { simpl length in Hlen. lia. }
  pose proof (@scan_back_split [] leaf Hsep) as Hscan. simpl app in Hscan.
  rewrite Hscan. simpl length. cbn [Nat.ltb Nat.leb].
  destruct leaf as [|c leaf'].
  - cbn. rewrite !store_fits by (simpl; lia). reflexivity.
  - unfold char_at. simpl length.
    cbn [Nat.ltb Nat.leb nth obind].
    destruct (Ascii.eqb_spec c NUL) as [E|_].
    { exfalso. apply Hnul. left. auto. }
    cbn [skipn]. rewrite !store_fits by (simpl in *; lia). reflexivity.
Qed.

(** On a path that starts with the separator and has another one later,
    the parent is what precedes the last separator and the leaf is what
    follows it. *)
Lemma split_path_absolute (dir leaf : cstring) :
  ~ In SLASH leaf ->
  (length leaf < NAME_MAX)%nat -> (S (length dir) < PATH_MAX)%nat ->
  Z.of_nat (length dir + length leaf + 2) <= INT_MAX ->
  split_path (SLASH :: dir ++ SLASH :: leaf) = Ok (SLASH :: dir, leaf).
Proof.
  intros Hsep Hname Hpath Hint. unfold split_path.
  destruct (Z.ltb_spec INT_MAX (Z.of_nat (length (SLASH :: dir ++ SLASH :: leaf))))
    as [Hlen|_].
  { simpl length in Hlen. rewrite length_app in Hlen. simpl length in Hlen. lia. }
  pose proof (@scan_back_split (SLASH :: dir) leaf Hsep) as Hscan.
  simpl app in Hscan. rewrite Hscan. simpl length.
  cbn [Nat.ltb Nat.leb nth]. rewrite Ascii.eqb_refl.
  replace (S (length dir) + 1)%nat with (length ((SLASH :: dir) ++ [SLASH]))
    by (rewrite length_app; simpl; lia).
  replace (SLASH :: dir ++ SLASH :: leaf) with (((SLASH :: dir) ++ [SLASH]) ++ leaf)
    by (rewrite <- app_assoc; reflexivity).
  rewrite skipn_app, skipn_all, Nat.sub_diag. cbn [skipn app].
  replace (S (length dir)) with (length (SLASH :: dir)) by reflexivity.
  replace (SLASH :: (dir ++ [SLASH]) ++ leaf) with ((SLASH :: dir) ++ SLASH :: leaf)
    by (simpl; rewrite <- app_assoc; reflexivity).
  rewrite firstn_app, firstn_all, Nat.sub_diag.
  cbn [firstn]. rewrite app_nil_r.
  rewrite !store_fits by (simpl; lia). reflexivity.
Qed.

(** A name without any separator loses its first character: the code
    skips [filepath[0]] whether it is a separator or not. *)
Lemma split_path_bare_name (c : ascii) (rest : cstring) :
  ~ In SLASH (c :: rest) -> ~ In NUL rest ->
  (length rest < NAME_MAX)%nat -> (1 < NAME_MAX)%nat -> (1 < PATH_MAX)%nat ->
  Z.of_nat (length rest) < INT_MAX ->
  split_path (c :: rest)
  = Ok ([SLASH], match rest with [] => [DOT] | _ => rest end).
Proof.
  intros Hsep Hnul Hname Hn1 Hp1 Hint. unfold split_path.
  destruct (Z.ltb_spec INT_MAX (Z.of_nat (length (c :: rest)))) as [Hlen|_].
  { simpl length in Hlen. lia. }
  rewrite scan_back_no_sep by auto. cbn [Nat.ltb Nat.leb].
  destruct rest as [|d rest'].
  - cbn. rewrite !store_fits by (simpl; lia). reflexivity.
  - unfold char_at. simpl length. cbn [Nat.ltb Nat.leb nth obind].
    destruct (Ascii.eqb_spec d NUL) as [E|_].
    { exfalso. apply Hnul. left. auto. }
    cbn [skipn]. rewrite !store_fits by (simpl in *; lia). reflexivity.
Qed.

(** The empty path makes the code read [filepath[1]], one character past
    the terminator. *)
Lemma split_path_empty : split_path [] = Undefined.
Proof.
  unfold split_path. simpl. destruct (store PATH_MAX [SLASH]); reflexivity.
Qed.

End SplitPathFacts.

(** C1 (the code departs from it): [split_path] follows the two-case
    algorithm only on paths that start with the separator.  A bare
    filename does not become the leaf unchanged: "foo" gives the parent "/"
    and the leaf "oo".  A relative path with a separator keeps the
    separator in the leaf: "a/b" gives the parent "a" and the leaf "/b".
    The path "/dev/zero2" is split as the algorithm says. *)
Theorem split_path_relative_paths :
  split_path (P := ia32) (lit "foo") = Ok (lit "/", lit "oo")
  /\ split_path (P := ia32) (lit "a/b") = Ok (lit "a", lit "/b")
  /\ split_path (P := ia32) (lit "/dev/zero2") = Ok (lit "/dev", lit "zero2").
Proof. repeat split; vm_compute; reflexivity. Qed.

(** ** The system call *)

Section SysMknodFacts.

Context {P : Platform} {W : Type} (K : kernel W).

Lemma exec_do {A X : Type} (c : call X) (k : X -> prog A) (w : W) :
  exec K (Do c k) w
  = let '(x, w', e) := perform K c w in
    let '(r, w'', t) := exec K (k x) w' in
    (r, w'', e :: t).
Proof. reflexivity. Qed.

Lemma perform_named (path : cstring) (w w' : W) (r : option dentry) :
  k_named K path w = (r, w') ->
  perform K (named path) w = (r, w', EvNamed path r).
Proof. intros E. simpl. rewrite E. reflexivity. Qed.

Lemma perform_vfs_mknod (idir mode dev r : Z) (w w' : W) :
  k_vfs_mknod K idir mode dev w = (r, w') ->
  perform K (vfs_mknod idir mode dev) w = (r, w', EvMknod idir mode dev r).
Proof. intros E. simpl. rewrite E. reflexivity. Qed.

End SysMknodFacts.

(** C3 (the code departs from it): when [vfs_mknod] reports success and
    the path does not resolve afterwards, [sys_mknod] sets the result to -1
    and still calls [dget], on the null entry: the last call of the run is
    [dget(NULL)]. *)
Theorem sys_mknod_dget_on_null
    {P : Platform} {W : Type} (K : kernel W)
    (pathname parent name : cstring) (mode dev : Z) (de : dentry)
    (w w1 w2 w3 w4 : W) :
  k_named K pathname w = (None, w1) ->
  split_path pathname = Ok (parent, name) ->
  k_named K parent w1 = (Some de, w2) ->
  k_vfs_mknod K (inod de) mode dev w2 = (0, w3) ->
  k_named K pathname w3 = (None, w4) ->
  exec K (sys_mknod pathname mode dev) w
  = (Ok (-1), k_dget K None w4,
     [EvNamed pathname None; EvNamed parent (Some de);
      EvMknod (inod de) mode dev 0; EvNamed pathname None; EvDget None]).
Proof.
  intros H1 Hs H2 H3 H4. unfold sys_mknod.
  rewrite exec_do, (perform_named K _ _ _ _ H1), Hs.
  rewrite exec_do, (perform_named K _ _ _ _ H2).
  rewrite exec_do, (perform_vfs_mknod K _ _ _ _ _ _ H3).
  change (0 =? 0) with true. cbv iota.
  rewrite exec_do, (perform_named K _ _ _ _ H4).
  reflexivity.
Qed.

Lemma sys_mknod_dget_on_null_witness :
  exec stub_kernel (sys_mknod (P := ia32) (lit "/dev/zero2") 0x2000 0x0105) (0%nat, 0%nat)
  = (Ok (-1), (1%nat, 1%nat),
     [EvNamed (lit "/dev/zero2") None;
      EvNamed (lit "/dev") (Some (mk_dentry 2 20));
      EvMknod 20 0x2000 0x0105 0;
      EvNamed (lit "/dev/zero2") None;
      EvDget None]).
Proof.
  apply (sys_mknod_dget_on_null (P := ia32) stub_kernel
           (lit "/dev/zero2") (lit "/dev") (lit "zero2") 0x2000 0x0105
           (mk_dentry 2 20) (0%nat, 0%nat) (0%nat, 0%nat) (0%nat, 0%nat)
           (1%nat, 0%nat) (1%nat, 0%nat));
    vm_compute; reflexivity.
Defined.

(** C4 as amended: [sys_mknod] on a path that resolves returns
    [-EEXIST], and on a path that [split_path] is defined on (not empty,
    parent and leaf within their buffers) and whose parent does not resolve
    returns -1; in both cases the only calls made are the path resolutions,
    [vfs_mknod] is not called, and whatever the resolutions leave alone
    (the node registry) is as it was. *)
Theorem sys_mknod_failures_allocate_nothing
    {P : Platform} {W : Type} (K : kernel W)
    (pathname : cstring) (mode dev : Z) (w : W) :
  (forall de w1,
     k_named K pathname w = (Some de, w1) ->
     exec K (sys_mknod pathname mode dev) w
     = (Ok (- EEXIST), w1, [EvNamed pathname (Some de)])
     /\ existsb is_mknod (snd (exec K (sys_mknod pathname mode dev) w)) = false
     /\ forall (R : Type) (registry : W -> R),
          (forall path v, registry (snd (k_named K path v)) = registry v) ->
          registry w1 = registry w)
  /\ (forall parent name w1 w2,
        k_named K pathname w = (None, w1) ->
        split_path pathname = Ok (parent, name) ->
        k_named K parent w1 = (None, w2) ->
        exec K (sys_mknod pathname mode dev) w
        = (Ok (-1), w2, [EvNamed pathname None; EvNamed parent None])
        /\ existsb is_mknod (snd (exec K (sys_mknod pathname mode dev) w)) = false
        /\ forall (R : Type) (registry : W -> R),
             (forall path v, registry (snd (k_named K path v)) = registry v) ->
             registry w2 = registry w).
Proof.
  split.
  - intros de w1 H1.
    assert (E : exec K (sys_mknod pathname mode dev) w
                = (Ok (- EEXIST), w1, [EvNamed pathname (Some de)])).
    { unfold sys_mknod. rewrite exec_do, (perform_named K _ _ _ _ H1). reflexivity. }
    split; [exact E|]. split; [rewrite E; reflexivity|].
    intros R registry Hinv.
    pose proof (Hinv pathname w) as E1. rewrite H1 in E1. exact E1.
  - intros parent name w1 w2 H1 Hs H2.
    assert (E : exec K (sys_mknod pathname mode dev) w
                = (Ok (-1), w2, [EvNamed pathname None; EvNamed parent None])).
    { unfold sys_mknod. rewrite exec_do, (perform_named K _ _ _ _ H1), Hs.
      rewrite exec_do, (perform_named K _ _ _ _ H2). reflexivity. }
    split; [exact E|]. split; [rewrite E; reflexivity|].
    intros R registry Hinv.
    pose proof (Hinv pathname w) as E1. rewrite H1 in E1.
    pose proof (Hinv parent w1) as E2. rewrite H2 in E2.
    simpl in E1, E2. congruence.
Qed.

Lemma sys_mknod_failures_allocate_nothing_witness :
  exec stub_kernel (sys_mknod (P := ia32) (lit "/dev") 0x2000 0x0105) (3%nat, 0%nat)
  = (Ok (-17), (3%nat, 0%nat), [EvNamed (lit "/dev") (Some (mk_dentry 2 20))])
  /\ exec stub_kernel (sys_mknod (P := ia32) (lit "/noparent/x") 0x2000 0x0105)
       (3%nat, 0%nat)
     = (Ok (-1), (3%nat, 0%nat),
        [EvNamed (lit "/noparent/x") None; EvNamed (lit "/noparent") None]).
Proof.
  split.
  - refine (proj1 (proj1 (sys_mknod_failures_allocate_nothing (P := ia32)
                           stub_kernel (lit "/dev") 0x2000 0x0105 (3%nat, 0%nat))
                        (mk_dentry 2 20) (3%nat, 0%nat) _)).
    vm_compute; reflexivity.
  - refine (proj1 (proj2 (sys_mknod_failures_allocate_nothing (P := ia32)
                           stub_kernel (lit "/noparent/x") 0x2000 0x0105
                           (3%nat, 0%nat))
                        (lit "/noparent") (lit "x") (3%nat, 0%nat) (3%nat, 0%nat)
                        _ _ _));
      vm_compute; reflexivity.
Defined.

(** C4 as stated fails: on a path that does not resolve and whose leaf
    has [NAME_MAX] characters, [split_path] copies the leaf beyond the
    buffer [name] before the parent is looked at; the run is undefined
    instead of returning -1, although the parent does not resolve. *)
Lemma sys_mknod_leaf_overrun :
  let pathname := lit "/noparent/" ++ repeat "x"%char 255 in
  k_named stub_kernel pathname (0%nat, 0%nat) = (None, (0%nat, 0%nat))
  /\ k_named stub_kernel (lit "/noparent") (0%nat, 0%nat) = (None, (0%nat, 0%nat))
  /\ split_path (P := ia32) pathname = Undefined
  /\ exec stub_kernel (sys_mknod (P := ia32) pathname 0x2000 0x0105) (0%nat, 0%nat)
     = (Undefined, (0%nat, 0%nat), [EvNamed pathname None]).
Proof. intros pathname. repeat split; vm_compute; reflexivity. Qed.

(** ** Device dispatch *)

Section DispatchFacts.

Context {P : Platform} {D : Drivers}.

Lemma to_ssize_small (count : Z) :
  count <= SSIZE_MAX -> to_ssize count = count.
Proof.
  intros H. unfold to_ssize.
  destruct (Z.leb_spec count SSIZE_MAX); [reflexivity|lia].
Qed.

Lemma to_ssize_large (count : Z) :
  SSIZE_MAX < count -> to_ssize count = count - 2 ^ SIZE_BITS.
Proof.
  intros H. unfold to_ssize.
  destruct (Z.leb_spec count SSIZE_MAX); [lia|reflexivity].
Qed.

(** On every target the smallest count with the top bit set comes back
    negative. *)
Lemma to_ssize_top_bit :
  1 <= SIZE_BITS -> to_ssize (2 ^ (SIZE_BITS - 1)) = - 2 ^ (SIZE_BITS - 1).
Proof.
  intros H. rewrite to_ssize_large by (unfold SSIZE_MAX; lia).
  replace SIZE_BITS with (Z.succ (SIZE_BITS - 1)) at 2 by lia.
  rewrite Z.pow_succ_r by lia. lia.
Qed.

(** Distinct case labels: the zero and null devices are neither a
    terminal nor the ramdisk, and differ from each other. *)
Lemma labels_apart :
  NoDup case_labels ->
  is_tty DEV_ZERO = false /\ (DEV_ZERO =? DEV_INITRD) = false
  /\ is_tty DEV_NULL = false /\ (DEV_NULL =? DEV_INITRD) = false
  /\ (DEV_NULL =? DEV_ZERO) = false.
Proof.
  unfold case_labels, is_tty. intros H.
  repeat match goal with
         | N : NoDup (_ :: _) |- _ => inversion N; clear N; subst
         end.
  repeat match goal with
         | N : ~ In _ _ |- _ => simpl in N
         end.
  repeat split;
    repeat (apply orb_false_intro); apply Z.eqb_neq; intuition congruence.
Qed.

Lemma zero_read (inode : inode) (buf : list byte) (count offset : Z) (s : drv) :
  NoDup case_labels -> i_dev inode = DEV_ZERO ->
  devfs_inode_read inode buf count offset s
  = (buf' <- memset buf x00 count ;; Ok (to_ssize count, buf', s)).
Proof.
  intros Hl Hd. destruct (labels_apart Hl) as (T & I & _).
  unfold devfs_inode_read. rewrite Hd, T, I, Z.eqb_refl. reflexivity.
Qed.

Lemma zero_write (inode : inode) (buf : list byte) (count offset : Z) (s : drv) :
  NoDup case_labels -> i_dev inode = DEV_ZERO ->
  devfs_inode_write inode buf count offset s = Ok (to_ssize count, s).
Proof.
  intros Hl Hd. destruct (labels_apart Hl) as (T & I & _).
  unfold devfs_inode_write. rewrite Hd, T, I, Z.eqb_refl. reflexivity.
Qed.

Lemma null_read (inode : inode) (buf : list byte) (count offset : Z) (s : drv) :
  NoDup case_labels -> i_dev inode = DEV_NULL ->
  devfs_inode_read inode buf count offset s = Ok (to_ssize count, buf, s).
Proof.
  intros Hl Hd. destruct (labels_apart Hl) as (_ & _ & T & I & Z0).
  unfold devfs_inode_read. rewrite Hd, T, I, Z0, Z.eqb_refl. reflexivity.
Qed.

Lemma null_write (inode : inode) (buf : list byte) (count offset : Z) (s : drv) :
  NoDup case_labels -> i_dev inode = DEV_NULL ->
  devfs_inode_write inode buf count offset s = Ok (to_ssize count, s).
Proof.
  intros Hl Hd. destruct (labels_apart Hl) as (_ & _ & T & I & Z0).
  unfold devfs_inode_write. rewrite Hd, T, I, Z0, Z.eqb_refl. reflexivity.
Qed.

Lemma memset_fits (buf : list byte) (c : byte) (count : Z) :
  count <= Z.of_nat (length buf) ->
  memset buf c count
  = Ok (repeat c (Z.to_nat count) ++ skipn (Z.to_nat count) buf).
Proof.
  intros H. unfold memset.
  destruct (Z.leb_spec count (Z.of_nat (length buf))); [reflexivity|lia].
Qed.

End DispatchFacts.

Lemma ia32_labels : NoDup (case_labels (P := ia32)).
Proof. labels_distinct. Qed.

(** C5 as amended: for every count n that the return type can hold
    (n <= SSIZE_MAX), reading n bytes from the zero device into a buffer
    of at least n bytes sets the first n bytes to zero, leaves the rest,
    and returns n; writing n bytes to the zero device returns n, whatever
    the data, and leaves the drivers alone. *)
Theorem zero_device_transfers
    {P : Platform} {D : Drivers}
    (inode : inode) (buf : list byte) (count offset : Z) (s : drv) :
  NoDup case_labels ->
  i_dev inode = DEV_ZERO ->
  0 <= count <= SSIZE_MAX ->
  (count <= Z.of_nat (length buf) ->
   devfs_inode_read inode buf count offset s
   = Ok (count, repeat x00 (Z.to_nat count) ++ skipn (Z.to_nat count) buf, s))
  /\ devfs_inode_write inode buf count offset s = Ok (count, s).
Proof.
  intros Hl Hd Hc. split.
  - intros Hb. rewrite zero_read, memset_fits by assumption.
    simpl. rewrite to_ssize_small by lia. reflexivity.
  - rewrite zero_write by assumption. rewrite to_ssize_small by lia. reflexivity.
Qed.

Lemma zero_device_transfers_witness :
  devfs_inode_read (P := ia32) (D := idle_drivers)
    (mk_inode 1 0x0105 0) [x41; x42; x43; x44] 3 0 tt
  = Ok (3, [x00; x00; x00; x44], tt)
  /\ devfs_inode_write (P := ia32) (D := idle_drivers)
       (mk_inode 1 0x0105 0) [x41; x42; x43; x44] 3 0 tt
     = Ok (3, tt).
Proof.
  assert (L : NoDup (case_labels (P := ia32))) by labels_distinct.
  pose proof (zero_device_transfers (P := ia32) (D := idle_drivers)
                (mk_inode 1 0x0105 0) [x41; x42; x43; x44] 3 0 tt
                L eq_refl) as H.
  destruct H as [R Wr]; [vm_compute; split; discriminate|].
  split; [apply R; vm_compute; discriminate | exact Wr].
Defined.

(** C5 as stated fails: on a 32-bit target a count of 2^31, with a
    buffer of that many bytes, makes both the read and the write on the
    zero device return -2^31. *)
Lemma zero_device_count_wraps :
  let count := 2147483648 in
  let buf := repeat x41 (Z.to_nat count) in
  Z.of_nat (length buf) = count
  /\ 0 <= count <= SIZE_MAX (P := ia32)
  /\ (exists buf',
        devfs_inode_read (P := ia32) (D := idle_drivers)
          (mk_inode 1 0x0105 0) buf count 0 tt = Ok (- 2147483648, buf', tt))
  /\ devfs_inode_write (P := ia32) (D := idle_drivers)
       (mk_inode 1 0x0105 0) buf count 0 tt = Ok (- 2147483648, tt).
Proof.
  intros count buf.
  assert (Hlen : Z.of_nat (length buf) = count).
  { unfold buf. rewrite repeat_length. apply Z2Nat.id. unfold count. lia. }
  clearbody buf. subst count.
  split; [exact Hlen|]. split; [vm_compute; split; discriminate|]. split.
  - eexists. rewrite (zero_read (P := ia32)) by (exact ia32_labels || reflexivity).
    rewrite memset_fits by lia. reflexivity.
  - rewrite (zero_write (P := ia32)) by (exact ia32_labels || reflexivity).
    reflexivity.
Qed.

(** C8 as amended: for every count n that the return type can hold
    (n <= SSIZE_MAX), reading n bytes from the null device returns n and
    leaves the buffer and the drivers as they were; writing n bytes to it
    returns n whatever the source holds. *)
Theorem null_device_transfers
    {P : Platform} {D : Drivers}
    (inode : inode) (buf : list byte) (count offset : Z) (s : drv) :
  NoDup case_labels ->
  i_dev inode = DEV_NULL ->
  0 <= count <= SSIZE_MAX ->
  devfs_inode_read inode buf count offset s = Ok (count, buf, s)
  /\ forall src, devfs_inode_write inode src count offset s = Ok (count, s).
Proof.
  intros Hl Hd Hc. split.
  - rewrite null_read by assumption. rewrite to_ssize_small by lia. reflexivity.
  - intros src. rewrite null_write by assumption.
    rewrite to_ssize_small by lia. reflexivity.
Qed.

Lemma null_device_transfers_witness :
  devfs_inode_read (P := ia32) (D := idle_drivers)
    (mk_inode 2 0x0103 0) [x41; x42; x43; x44] 3 0 tt
  = Ok (3, [x41; x42; x43; x44], tt)
  /\ forall src,
       devfs_inode_write (P := ia32) (D := idle_drivers)
         (mk_inode 2 0x0103 0) src 3 0 tt
       = Ok (3, tt).
Proof.
  assert (L : NoDup (case_labels (P := ia32))) by labels_distinct.
  apply (null_device_transfers (P := ia32) (D := idle_drivers)
           (mk_inode 2 0x0103 0) [x41; x42; x43; x44] 3 0 tt L eq_refl).
  vm_compute; split; discriminate.
Defined.

(** C8 as stated fails: on a 32-bit target a count of 2^31 makes the read
    and the write on the null device return -2^31. *)
Lemma null_device_count_wraps :
  let count := 2147483648 in
  let buf := repeat x41 (Z.to_nat count) in
  Z.of_nat (length buf) = count
  /\ 0 <= count <= SIZE_MAX (P := ia32)
  /\ devfs_inode_read (P := ia32) (D := idle_drivers)
       (mk_inode 2 0x0103 0) buf count 0 tt = Ok (- 2147483648, buf, tt)
  /\ devfs_inode_write (P := ia32) (D := idle_drivers)
       (mk_inode 2 0x0103 0) buf count 0 tt = Ok (- 2147483648, tt).
Proof.
  intros count buf.
  assert (Hlen : Z.of_nat (length buf) = count).
  { unfold buf. rewrite repeat_length. apply Z2Nat.id. unfold count. lia. }
  clearbody buf. subst count.
  split; [exact Hlen|]. split; [vm_compute; split; discriminate|]. split.
  - rewrite (null_read (P := ia32)) by (exact ia32_labels || reflexivity).
    reflexivity.
  - rewrite (null_write (P := ia32)) by (exact ia32_labels || reflexivity).
    reflexivity.
Qed.

(** ** The node registry *)

Section RegistryFacts.

Lemma dev_to_inode_from_first (pre post : registry) (a : Z) (nd : inode)
    (dev : Z) (p : pointer) :
  Forall (fun x => ~ carries dev x) pre -> i_dev nd = dev ->
  dev_to_inode_from (pre ++ (a, nd) :: post) dev p = Ptr a.
Proof.
  intros Hpre Hnd. revert p.
  induction Hpre as [|[b n] pre Hb _ IH]; intros p; simpl.
  - rewrite Hnd, Z.eqb_refl. reflexivity.
  - unfold carries in Hb. simpl in Hb.
    destruct (Z.eqb_spec (i_dev n) dev); [contradiction|]. apply IH.
Qed.

(** Without a match the loop leaves [inode] at the last node it
    visited. *)
Lemma dev_to_inode_from_unmatched (nodes : registry) (a : Z) (nd : inode)
    (dev : Z) (p : pointer) :
  Forall (fun x => ~ carries dev x) (nodes ++ [(a, nd)]) ->
  dev_to_inode_from (nodes ++ [(a, nd)]) dev p = Ptr a.
Proof.
  revert p. induction nodes as [|[b n] nodes IH]; intros p H; simpl.
  - inversion H as [|x l Hx _]; subst. unfold carries in Hx. simpl in Hx.
    destruct (Z.eqb_spec (i_dev nd) dev); [contradiction|reflexivity].
  - inversion H as [|x l Hx Hl]; subst. unfold carries in Hx. simpl in Hx.
    destruct (Z.eqb_spec (i_dev n) dev); [contradiction|]. apply IH, Hl.
Qed.

Lemma lookup_from_first (pre post : registry) (a : Z) (nd : inode)
    (dev : Z) (p : pointer) :
  Forall (fun x => ~ carries dev x) pre -> i_dev nd = dev ->
  lookup_from (pre ++ (a, nd) :: post) dev p = Ptr a.
Proof.
  intros Hpre Hnd.
  induction Hpre as [|[b n] pre Hb _ IH]; simpl.
  - rewrite Hnd, Z.eqb_refl. reflexivity.
  - unfold carries in Hb. simpl in Hb.
    destruct (Z.eqb_spec (i_dev n) dev); [contradiction|]. apply IH.
Qed.

Lemma lookup_from_null (nodes : registry) (dev : Z) :
  lookup_from nodes dev NULL = NULL
  <-> Forall (fun x => ~ carries dev x) nodes.
Proof.
  induction nodes as [|[b n] nodes IH]; simpl.
  - split; [constructor|reflexivity].
  - destruct (Z.eqb_spec (i_dev n) dev) as [E|N].
    + split; [discriminate|].
      intros H. inversion H as [|x l Hx _]. exfalso. apply Hx. exact E.
    + rewrite IH. split.
      * intros H. constructor; [exact N|exact H].
      * intros H. inversion H; assumption.
Qed.

End RegistryFacts.

Lemma dev_to_inode_empty (dev : Z) : dev_to_inode [] dev = Indeterminate.
Proof. reflexivity. Qed.

(** When a node carries the identifier, the first one in insertion order
    is returned. *)
Lemma dev_to_inode_first_match (pre post : registry) (a : Z) (nd : inode)
    (dev : Z) :
  Forall (fun x => ~ carries dev x) pre -> i_dev nd = dev ->
  dev_to_inode (pre ++ (a, nd) :: post) dev = Ptr a.
Proof. intros. unfold dev_to_inode. apply dev_to_inode_from_first; assumption. Qed.

(** C2 (the code departs from it): for a device identifier that no node
    of the registry carries, [dev_to_inode] does not return null: it
    returns the last node of the registry, and [devfs_read] and
    [devfs_write] dispatch on that node instead of failing with -1. *)
Theorem dev_to_inode_unmatched_returns_last
    {P : Platform} {D : Drivers}
    (nodes : registry) (a : Z) (nd : inode) (dev : Z)
    (buf : list byte) (size off : Z) (s : drv) :
  Forall (fun x => ~ carries dev x) (nodes ++ [(a, nd)]) ->
  deref (nodes ++ [(a, nd)]) a = Some nd ->
  dev_to_inode (nodes ++ [(a, nd)]) dev = Ptr a
  /\ devfs_read (nodes ++ [(a, nd)]) dev buf size off s
     = devfs_inode_read nd buf size off s
  /\ devfs_write (nodes ++ [(a, nd)]) dev buf size off s
     = devfs_inode_write nd buf size off s.
Proof.
  intros Hno Hd.
  assert (E : dev_to_inode (nodes ++ [(a, nd)]) dev = Ptr a).
  { unfold dev_to_inode. apply dev_to_inode_from_unmatched. exact Hno. }
  split; [exact E|]. unfold devfs_read, devfs_write.
  rewrite E, Hd. split; reflexivity.
Qed.

Lemma dev_to_inode_unmatched_returns_last_witness :
  let root := mk_inode 0 0x0300 0x4000 in
  let zero := mk_inode 1 0x0105 0x2000 in
  dev_to_inode [(100, root); (200, zero)] 0x9999 = Ptr 200
  /\ devfs_read (P := ia32) (D := idle_drivers) [(100, root); (200, zero)]
       0x9999 [x41; x42; x43] 3 0 tt
     = Ok (3, [x00; x00; x00], tt)
  /\ devfs_write (P := ia32) (D := idle_drivers) [(100, root); (200, zero)]
       0x9999 [x41; x42; x43] 3 0 tt
     = Ok (3, tt).
Proof.
  intros root zero.
  apply (dev_to_inode_unmatched_returns_last (P := ia32) (D := idle_drivers)
           [(100, root)] 200 zero 0x9999 [x41; x42; x43] 3 0 tt).
  - repeat constructor; unfold carries; simpl; discriminate.
  - reflexivity.
Defined.

(** ** Name resolution *)

Lemma strcmp_eq_iff (a b : cstring) : strcmp_eq a b = true <-> a = b.
Proof.
  revert b. induction a as [|c a IH]; intros [|d b]; simpl;
    try (split; [discriminate|discriminate]); try tauto.
  rewrite andb_true_iff, IH. split.
  - intros [E1 E2]. apply Ascii.eqb_eq in E1. congruence.
  - intros E. inversion E; subst. split; [apply Ascii.eqb_refl|reflexivity].
Qed.

Lemma strcmp_eq_false (a b : cstring) : a <> b -> strcmp_eq a b = false.
Proof.
  intros N. destruct (strcmp_eq a b) eqn:E; [|reflexivity].
  apply strcmp_eq_iff in E. contradiction.
Qed.

Lemma name_to_dev_from_absent (rows : list (cstring * Z)) (name : cstring)
    (dev : Z) :
  Forall (fun row => fst row <> name) rows ->
  name_to_dev_from rows name dev = dev.
Proof.
  induction 1 as [|[n d] rows Hn _ IH]; simpl; [reflexivity|].
  simpl in Hn. rewrite (strcmp_eq_false _ _ Hn). exact IH.
Qed.

(** For a name of the table the mapped identifier is returned. *)
Lemma name_to_dev_from_present (pre post : list (cstring * Z))
    (name : cstring) (d dev : Z) :
  Forall (fun row => fst row <> name) pre ->
  name_to_dev_from (pre ++ (name, d) :: post) name dev = d.
Proof.
  induction 1 as [|[n e] pre Hn _ IH]; simpl.
  - rewrite (proj2 (strcmp_eq_iff name name) eq_refl). reflexivity.
  - simpl in Hn. rewrite (strcmp_eq_false _ _ Hn). exact IH.
Qed.

(** C9 as amended: for every name absent from the table, [name_to_dev]
    returns 0xFFFF; and when the name is neither "." nor "..",
    [devfs_lookup] searches the registry for that identifier: it returns
    null exactly when no node carries 0xFFFF, and otherwise returns the
    first node that carries it. *)
Theorem unknown_name_lookup
    {P : Platform} (nodes : registry) (dir : pointer) (name : cstring) :
  Forall (fun row => fst row <> name) dev_name_map ->
  name_to_dev name = 0xFFFF
  /\ (name <> lit "." -> name <> lit ".." ->
      devfs_lookup nodes dir name = lookup_from nodes 0xFFFF NULL
      /\ (devfs_lookup nodes dir name = NULL
          <-> Forall (fun x => ~ carries 0xFFFF x) nodes)
      /\ forall pre a nd post,
           nodes = pre ++ (a, nd) :: post ->
           Forall (fun x => ~ carries 0xFFFF x) pre ->
           i_dev nd = 0xFFFF ->
           devfs_lookup nodes dir name = Ptr a).
Proof.
  intros Habs.
  assert (E : name_to_dev name = 0xFFFF).
  { unfold name_to_dev. apply name_to_dev_from_absent. exact Habs. }
  split; [exact E|]. intros Hdot Hdotdot.
  assert (L : devfs_lookup nodes dir name = lookup_from nodes 0xFFFF NULL).
  { unfold devfs_lookup.
    rewrite (strcmp_eq_false _ _ Hdot), (strcmp_eq_false _ _ Hdotdot), E.
    reflexivity. }
  split; [exact L|]. split.
  - rewrite L. apply lookup_from_null.
  - intros pre a nd post Hn Hpre Hnd. rewrite L, Hn.
    apply lookup_from_first; assumption.
Qed.

Lemma unknown_name_lookup_witness :
  let nodes := [(100, mk_inode 0 0x0300 0x4000); (300, mk_inode 1 0xFFFF 0x2000)] in
  name_to_dev (P := ia32) (lit "bogus") = 0xFFFF
  /\ devfs_lookup (P := ia32) nodes (Ptr 100) (lit "bogus") = Ptr 300.
Proof.
  intros nodes.
  destruct (unknown_name_lookup (P := ia32) nodes (Ptr 100) (lit "bogus"))
    as [E H].
  - repeat constructor; simpl; discriminate.
  - split; [exact E|].
    destruct H as (_ & _ & H); [discriminate|discriminate|].
    apply (H [(100, mk_inode 0 0x0300 0x4000)] 300 (mk_inode 1 0xFFFF 0x2000) []).
    + reflexivity.
    + repeat constructor; unfold carries; simpl; discriminate.
    + reflexivity.
Defined.

(** C9 as stated fails: "." is absent from the table, yet its lookup
    returns the directory that was passed in, although no node carries
    0xFFFF. *)
Lemma unknown_name_dot_returns_dir :
  ~ (forall (nodes : registry) (dir : pointer) (name : cstring),
       Forall (fun row => fst row <> name) (dev_name_map (P := ia32)) ->
       (devfs_lookup (P := ia32) nodes dir name = NULL
        <-> Forall (fun x => ~ carries 0xFFFF x) nodes)).
Proof.
  intros H. specialize (H [] (Ptr 100) (lit ".")).
  assert (A : Forall (fun row => fst row <> lit ".") (dev_name_map (P := ia32))).
  { repeat constructor; simpl; discriminate. }
  destruct (H A) as [_ B]. specialize (B (Forall_nil _)).
  vm_compute in B. discriminate.
Qed.

(** ** Mounting *)

(** C10: [devfs_sb_create], run in a kernel that has allocated nothing
    yet, obtains the root from [devfs_sb_inode_alloc]; the root is then the
    first (and only) node of the registry, has sequence number 0, mode
    [S_IFDIR] and the device identifier passed in, and is what
    [dev_to_inode] returns for that identifier, also after further nodes
    were added behind it. *)
Theorem devfs_sb_create_root
    {P : Platform} (dev a : Z) (fs : devfs) :
  ino fs = 0 ->
  let root := {| i_ino := 0; i_dev := dev; i_mode := S_IFDIR |} in
  exists fs1 fs',
    devfs_sb_inode_alloc (Some a)
      {| devfs_nodes := []; ino := ino fs; devfs_sb := devfs_sb fs;
         linked := true |}
    = Ok (Ptr a, fs1)
    /\ devfs_nodes fs1 = [(a, inode_init 0 0)]
    /\ devfs_sb_create dev (Some a) fs = Ok fs'
    /\ devfs_nodes fs' = [(a, root)]
    /\ devfs_sb fs' = Some {| rd_name := lit "/"; rd_inode := a |}
    /\ forall later,
         dev_to_inode (devfs_nodes fs' ++ later) dev = Ptr a
         /\ deref (devfs_nodes fs' ++ later) a = Some root.
Proof.
  intros Hino root.
  unfold devfs_sb_create, devfs_sb_inode_alloc. simpl. rewrite Hino. simpl.
  rewrite Z.eqb_refl. simpl. rewrite Z.eqb_refl.
  do 2 eexists. repeat split; try reflexivity.
  - simpl. unfold dev_to_inode. simpl. rewrite Z.eqb_refl. reflexivity.
  - simpl. rewrite Z.eqb_refl. reflexivity.
Qed.

Lemma devfs_sb_create_root_witness :
  exists fs',
    devfs_sb_create (P := ia32) 0x0300 (Some 100) boot = Ok fs'
    /\ devfs_nodes fs' = [(100, mk_inode 0 0x0300 0x4000)]
    /\ dev_to_inode (devfs_nodes fs') 0x0300 = Ptr 100.
Proof.
  destruct (devfs_sb_create_root (P := ia32) 0x0300 100 boot eq_refl)
    as (fs1 & fs' & _ & _ & E & N & _ & L).
  exists fs'. split; [exact E|]. split; [exact N|].
  destruct (L []) as [L1 _]. rewrite app_nil_r in L1. exact L1.
Defined.

(** ** The allocator *)

Section AllocatorFacts.

Context {P : Platform}.

Lemma allocations_alloc (a : Z) (reqs : list request) :
  allocations (Alloc (Some a) :: reqs) = 1 + allocations reqs.
Proof. unfold allocations. simpl filter. simpl length. lia. Qed.

Lemma allocations_mount (dev a : Z) (reqs : list request) :
  allocations (Mount dev (Some a) :: reqs) = 1 + allocations reqs.
Proof. unfold allocations. simpl filter. simpl length. lia. Qed.

Lemma allocations_nonneg (reqs : list request) : 0 <= allocations reqs.
Proof. unfold allocations. lia. Qed.

Lemma assigned_tail (a : Z) (nodes : registry) (n : inode) (c : Z)
    (sb : option root_dentry) (l : bool) :
  assigned (Ptr a)
    {| devfs_nodes := nodes ++ [(a, n)]; ino := c; devfs_sb := sb; linked := l |}
  = [i_ino n].
Proof. unfold assigned. simpl. rewrite rev_unit. reflexivity. Qed.

(** A free that returns leaves the counter alone. *)
Lemma free_keeps_counter (a : Z) (fs fs' : devfs) :
  devfs_sb_inode_free a fs = Ok fs' -> ino fs' = ino fs.
Proof.
  unfold devfs_sb_inode_free. destruct (linked fs); [|discriminate].
  destruct (list_delete a (devfs_nodes fs)); [|discriminate].
  cbn [obind]. intros E. injection E as <-. reflexivity.
Qed.

(** A failed allocation leaves the whole state alone. *)
Lemma alloc_failure (fs : devfs) :
  devfs_sb_inode_alloc None fs = Ok (NULL, fs).
Proof. reflexivity. Qed.

(** At [INT_MAX] the increment of the counter overflows. *)
Lemma alloc_counter_overflow (a : Z) (fs : devfs) :
  ino fs = INT_MAX -> devfs_sb_inode_alloc (Some a) fs = Undefined.
Proof. intros E. unfold devfs_sb_inode_alloc. rewrite E. reflexivity. Qed.

(** On an initialised list and below [INT_MAX] the allocation returns,
    with the counter as the number given. *)
Lemma alloc_gives_counter (a : Z) (fs : devfs) :
  linked fs = true -> ino fs < INT_MAX ->
  exists fs',
    devfs_sb_inode_alloc (Some a) fs = Ok (Ptr a, fs')
    /\ assigned (Ptr a) fs' = [ino fs]
    /\ ino fs' = ino fs + 1
    /\ linked fs' = true.
Proof.
  intros Hl Hc. unfold devfs_sb_inode_alloc.
  destruct (Z.ltb_spec (ino fs) INT_MAX) as [_|]; [|lia]. rewrite Hl.
  eexists. split; [reflexivity|]. rewrite assigned_tail. repeat split.
Qed.

(** What an allocation that returned has done to the counter. *)
Lemma alloc_returned (a : Z) (fs fs' : devfs) (p : pointer) :
  devfs_sb_inode_alloc (Some a) fs = Ok (p, fs') ->
  ino fs < INT_MAX /\ assigned p fs' = [ino fs] /\ ino fs' = ino fs + 1.
Proof.
  unfold devfs_sb_inode_alloc.
  destruct (Z.ltb_spec (ino fs) INT_MAX) as [Hc|]; [|discriminate].
  destruct (linked fs); [|discriminate].
  intros E. injection E as <- <-. rewrite assigned_tail. repeat split. exact Hc.
Qed.

(** What a mount that returned has done: the registry holds the root and
    nothing else. *)
Lemma create_returned (dev : Z) (kmalloc : option Z) (fs fs' : devfs) :
  devfs_sb_create dev kmalloc fs = Ok fs' ->
  exists a,
    kmalloc = Some a /\ ino fs < INT_MAX
    /\ fs' = {| devfs_nodes :=
                  [(a, {| i_ino := ino fs; i_dev := dev; i_mode := S_IFDIR |})];
                ino := ino fs + 1;
                devfs_sb := Some {| rd_name := lit "/"; rd_inode := a |};
                linked := true |}.
Proof.
  unfold devfs_sb_create, devfs_sb_inode_alloc.
  destruct kmalloc as [a|]; [|discriminate]. cbn [ino linked devfs_nodes devfs_sb].
  destruct (Z.ltb_spec (ino fs) INT_MAX) as [Hc|]; [|discriminate].
  cbn. rewrite Z.eqb_refl. cbn. rewrite Z.eqb_refl.
  intros E. injection E as <-. exists a. repeat split. exact Hc.
Qed.

Lemma serve_mount (dev : Z) (kmalloc : option Z) (reqs : list request)
    (fs : devfs) :
  serve (Mount dev kmalloc :: reqs) fs
  = (fs1 <- devfs_sb_create dev kmalloc fs ;;
     '(fs2, given) <- serve reqs fs1 ;;
     Ok (fs2, assigned (match kmalloc with Some a => Ptr a | None => NULL end) fs1
              ++ given)).
Proof. reflexivity. Qed.

Lemma serve_alloc (kmalloc : option Z) (reqs : list request) (fs : devfs) :
  serve (Alloc kmalloc :: reqs) fs
  = ('(p, fs1) <- devfs_sb_inode_alloc kmalloc fs ;;
     '(fs2, given) <- serve reqs fs1 ;;
     Ok (fs2, assigned p fs1 ++ given)).
Proof. reflexivity. Qed.

Lemma serve_free (a : Z) (reqs : list request) (fs : devfs) :
  serve (Free a :: reqs) fs
  = (fs1 <- devfs_sb_inode_free a fs ;; serve reqs fs1).
Proof. reflexivity. Qed.

(** The numbers given by a history that ran to its end: as many as it
    has allocations, from the counter on, each below [INT_MAX], in
    increasing order. *)
Lemma serve_given (reqs : list request) :
  forall (fs fs' : devfs) (given : list Z),
    serve reqs fs = Ok (fs', given) ->
    ino fs' = ino fs + allocations reqs
    /\ Z.of_nat (length given) = allocations reqs
    /\ StronglySorted Z.lt given
    /\ Forall (fun n => ino fs <= n < ino fs' /\ n < INT_MAX) given.
Proof.
  induction reqs as [|[dev k|[a|]|a] reqs IH]; intros fs fs' given.
  - cbn [serve]. intros E. injection E as <- <-.
    unfold allocations. simpl. repeat split; try lia; constructor.
  - rewrite serve_mount.
    destruct (devfs_sb_create dev k fs) as [fs1|] eqn:Ec; [|discriminate].
    cbn [obind].
    destruct (serve reqs fs1) as [[fs2 g]|] eqn:Es; [|discriminate].
    cbn [obind]. intros E. injection E as <- <-.
    destruct (create_returned dev k fs fs1 Ec) as (a & -> & Hc & ->).
    destruct (IH _ _ _ Es) as (Hi & Hl & Hs & Hf). cbn [ino] in Hi, Hf.
    pose proof (allocations_nonneg reqs) as Hn.
    change [(a, {| i_ino := ino fs; i_dev := dev; i_mode := S_IFDIR |})]
      with ([] ++ [(a, {| i_ino := ino fs; i_dev := dev; i_mode := S_IFDIR |})]).
    rewrite assigned_tail, allocations_mount. cbn [i_ino app length].
    repeat split.
    + lia.
    + lia.
    + constructor; [exact Hs|].
      eapply Forall_impl; [|exact Hf]. simpl. intros n Hn'. lia.
    + constructor; [lia|].
      eapply Forall_impl; [|exact Hf]. simpl. intros n Hn'. lia.
  - rewrite serve_alloc.
    destruct (devfs_sb_inode_alloc (Some a) fs) as [[p fs1]|] eqn:Ea; [|discriminate].
    cbn [obind].
    destruct (serve reqs fs1) as [[fs2 g]|] eqn:Es; [|discriminate].
    cbn [obind]. intros E. injection E as <- <-.
    destruct (alloc_returned a fs fs1 p Ea) as (Hc & -> & Hi1).
    destruct (IH _ _ _ Es) as (Hi & Hl & Hs & Hf). rewrite Hi1 in Hi, Hf.
    pose proof (allocations_nonneg reqs) as Hn.
    rewrite allocations_alloc. cbn [app length].
    repeat split.
    + lia.
    + lia.
    + constructor; [exact Hs|].
      eapply Forall_impl; [|exact Hf]. simpl. intros n Hn'. lia.
    + constructor; [lia|].
      eapply Forall_impl; [|exact Hf]. simpl. intros n Hn'. lia.
  - rewrite serve_alloc, alloc_failure. cbn [obind].
    destruct (serve reqs fs) as [[fs2 g]|] eqn:Es; [|discriminate].
    cbn [obind assigned app]. intros E. injection E as <- <-.
    exact (IH _ _ _ Es).
  - rewrite serve_free.
    destruct (devfs_sb_inode_free a fs) as [fs1|] eqn:Ef; [|discriminate].
    cbn [obind]. intros E.
    destruct (IH _ _ _ E) as (Hi & Hl & Hs & Hf).
    rewrite (free_keeps_counter a fs fs1 Ef) in Hi, Hf.
    repeat split; assumption.
Qed.

Lemma serve_app (r1 r2 : list request) :
  forall fs : devfs,
    serve (r1 ++ r2) fs
    = ('(fs1, g1) <- serve r1 fs ;;
       '(fs2, g2) <- serve r2 fs1 ;;
       Ok (fs2, g1 ++ g2)).
Proof.
  induction r1 as [|[dev k|k|a] r1 IH]; intros fs.
  - cbn [app serve obind]. destruct (serve r2 fs) as [[fs2 g2]|]; reflexivity.
  - change ((Mount dev k :: r1) ++ r2) with (Mount dev k :: (r1 ++ r2)).
    rewrite !serve_mount. destruct (devfs_sb_create dev k fs) as [fs1|]; [|reflexivity].
    cbn [obind]. rewrite IH.
    destruct (serve r1 fs1) as [[fs2 g1]|]; [|reflexivity]. cbn [obind].
    destruct (serve r2 fs2) as [[fs3 g2]|]; [|reflexivity]. cbn [obind].
    rewrite app_assoc. reflexivity.
  - change ((Alloc k :: r1) ++ r2) with (Alloc k :: (r1 ++ r2)).
    rewrite !serve_alloc.
    destruct (devfs_sb_inode_alloc k fs) as [[p fs1]|]; [|reflexivity].
    cbn [obind]. rewrite IH.
    destruct (serve r1 fs1) as [[fs2 g1]|]; [|reflexivity]. cbn [obind].
    destruct (serve r2 fs2) as [[fs3 g2]|]; [|reflexivity]. cbn [obind].
    rewrite app_assoc. reflexivity.
  - change ((Free a :: r1) ++ r2) with (Free a :: (r1 ++ r2)).
    rewrite !serve_free.
    destruct (devfs_sb_inode_free a fs) as [fs1|]; [|reflexivity].
    cbn [obind]. apply IH.
Qed.

Lemma list_delete_tail (l : registry) (a : Z) (nd : inode) :
  ~ In a (addresses l) -> list_delete a (l ++ [(a, nd)]) = Ok l.
Proof.
  induction l as [|[b n] l IH]; simpl; intros H.
  - rewrite Z.eqb_refl. reflexivity.
  - destruct (Z.eqb_spec b a) as [->|_]; [exfalso; auto|].
    rewrite IH by auto. reflexivity.
Qed.

(** Allocating at a fresh address and freeing again, [n] times, moves
    the counter by [n] and nothing else. *)
Lemma serve_churn (a : Z) (n : nat) :
  forall fs : devfs,
    linked fs = true ->
    ~ In a (addresses (devfs_nodes fs)) ->
    ino fs + Z.of_nat n <= INT_MAX ->
    exists fs' given,
      serve (churn a n) fs = Ok (fs', given)
      /\ devfs_nodes fs' = devfs_nodes fs
      /\ ino fs' = ino fs + Z.of_nat n
      /\ linked fs' = true.
Proof.
  induction n as [|n IH]; intros fs Hl Hf Hc.
  - exists fs, []. repeat split; [lia|exact Hl].
  - change (churn a (S n)) with (Alloc (Some a) :: Free a :: churn a n).
    rewrite serve_alloc. unfold devfs_sb_inode_alloc.
    destruct (Z.ltb_spec (ino fs) INT_MAX) as [_|]; [|lia]. rewrite Hl.
    cbn [obind]. rewrite serve_free. unfold devfs_sb_inode_free.
    cbn [linked devfs_nodes ino devfs_sb].
    rewrite (list_delete_tail _ a _ Hf). cbn [obind].
    destruct (IH {| devfs_nodes := devfs_nodes fs; ino := ino fs + 1;
                    devfs_sb := devfs_sb fs; linked := true |})
      as (fs' & given & E & Hn & Hi & Hl').
    + reflexivity.
    + exact Hf.
    + cbn [ino]. lia.
    + rewrite E. cbn [obind]. do 2 eexists. split; [reflexivity|].
      cbn [devfs_nodes ino] in Hn, Hi. repeat split; [exact Hn|lia|exact Hl'].
Qed.

(** Allocations alone, on the initialised list, run to their end as long
    as the counter stays within [INT_MAX]. *)
Lemma serve_allocs_defined (ks : list (option Z)) :
  forall fs : devfs,
    linked fs = true ->
    ino fs + allocations (map Alloc ks) <= INT_MAX ->
    exists fs' given, serve (map Alloc ks) fs = Ok (fs', given).
Proof.
  induction ks as [|[a|] ks IH]; intros fs Hl Hc.
  - exists fs, []. reflexivity.
  - cbn [map] in *. rewrite allocations_alloc in Hc.
    pose proof (allocations_nonneg (map Alloc ks)) as Hn.
    destruct (alloc_gives_counter a fs Hl) as (fs1 & Ea & _ & Ei & Hl1); [lia|].
    destruct (IH fs1 Hl1) as (fs' & given & E); [lia|].
    rewrite serve_alloc, Ea. cbn [obind]. rewrite E. cbn [obind].
    do 2 eexists. reflexivity.
  - cbn [map] in *.
    assert (Hc' : ino fs + allocations (map Alloc ks) <= INT_MAX) by exact Hc.
    destruct (IH fs Hl Hc') as (fs' & given & E).
    rewrite serve_alloc, alloc_failure. cbn [obind]. rewrite E. cbn [obind].
    do 2 eexists. reflexivity.
Qed.

End AllocatorFacts.

(** C6 as amended: in every history of mounts, allocations and frees
    that runs to its end (the counter below [INT_MAX] at each allocation,
    each free on a node of the registry), every allocation is given a
    sequence number strictly greater than every number given before it:
    the numbers given form a strictly increasing list without duplicates,
    at or above the counter the history started with.  A free does not
    change the counter, and below [INT_MAX] an allocation on the
    initialised list always returns, giving the counter and advancing it
    by one, so that allocations run to their end as long as the counter
    stays within [INT_MAX]. *)
Theorem sequence_numbers_increase
    {P : Platform} (reqs : list request) (fs fs' : devfs) (given : list Z) :
  serve reqs fs = Ok (fs', given) ->
  Z.of_nat (length given) = allocations reqs
  /\ StronglySorted Z.lt given
  /\ NoDup given
  /\ Forall (fun n => ino fs <= n < INT_MAX) given
  /\ ino fs' = ino fs + allocations reqs
  /\ (forall a st st', devfs_sb_inode_free a st = Ok st' -> ino st' = ino st)
  /\ (forall a st,
        linked st = true -> ino st < INT_MAX ->
        exists st',
          devfs_sb_inode_alloc (Some a) st = Ok (Ptr a, st')
          /\ assigned (Ptr a) st' = [ino st]
          /\ ino st' = ino st + 1)
  /\ (forall ks st,
        linked st = true ->
        ino st + allocations (map Alloc ks) <= INT_MAX ->
        exists st' g, serve (map Alloc ks) st = Ok (st', g)).
Proof.
  intros E. destruct (serve_given reqs fs fs' given E) as (Hi & Hl & Hs & Hf).
  split; [exact Hl|]. split; [exact Hs|].
  split; [|split; [|split; [exact Hi|split; [|split]]]].
  - clear - Hs. induction Hs as [|n l _ IH Hn]; constructor; [|exact IH].
    intros Hin. rewrite Forall_forall in Hn. specialize (Hn n Hin). lia.
  - eapply Forall_impl; [|exact Hf]. simpl. intros n Hn. lia.
  - exact free_keeps_counter.
  - intros a st Hlk Hc.
    destruct (alloc_gives_counter a st Hlk Hc) as (st' & Ea & Eg & Ei & _).
    exists st'. auto.
  - intros ks st. apply serve_allocs_defined.
Qed.

Lemma sequence_numbers_increase_witness :
  exists fs',
    serve (P := ia32)
      [Mount 0x0300 (Some 100); Alloc (Some 200); Alloc (Some 300); Free 200;
       Alloc None; Alloc (Some 200); Free 300; Alloc (Some 300)] boot
    = Ok (fs', [0; 1; 2; 3; 4])
    /\ NoDup [0; 1; 2; 3; 4].
Proof.
  destruct (serve (P := ia32)
              [Mount 0x0300 (Some 100); Alloc (Some 200); Alloc (Some 300);
               Free 200; Alloc None; Alloc (Some 200); Free 300;
               Alloc (Some 300)] boot) as [[fs' given]|] eqn:E;
    [|vm_compute in E; discriminate E].
  pose proof (sequence_numbers_increase (P := ia32) _ boot fs' given E)
    as (_ & _ & Hn & _).
  vm_compute in E. injection E as E1 E2. subst given.
  exists fs'. split; [reflexivity|exact Hn].
Defined.

(** C6 as stated fails: after the mount and 2^31 - 2 further
    allocations, each freed again, the counter stands at [INT_MAX]; the
    next allocation increments it beyond the range of [int], so that call
    is not given a number greater than the ones before it. *)
Lemma sequence_numbers_overflow :
  exists fs1 given,
    serve (P := ia32)
      (Mount 0x0300 (Some 100) :: churn 200 (Z.to_nat (INT_MAX - 1))) boot
    = Ok (fs1, given)
    /\ ino fs1 = INT_MAX
    /\ devfs_sb_inode_alloc (Some 200) fs1 = Undefined
    /\ serve (P := ia32)
         ((Mount 0x0300 (Some 100) :: churn 200 (Z.to_nat (INT_MAX - 1)))
          ++ [Alloc (Some 200)]) boot
       = Undefined.
Proof.
  assert (HN : Z.of_nat (Z.to_nat (INT_MAX - 1)) = INT_MAX - 1)
    by (apply Z2Nat.id; unfold INT_MAX; lia).
  remember (Z.to_nat (INT_MAX - 1)) as N eqn:EN. clear EN.
  set (m := {| devfs_nodes := [(100, mk_inode 0 0x0300 0x4000)]; ino := 1;
               devfs_sb := Some (mk_root (lit "/") 100); linked := true |}).
  assert (Em : devfs_sb_create (P := ia32) 0x0300 (Some 100) boot = Ok m)
    by reflexivity.
  destruct (serve_churn (P := ia32) 200 N m) as (fs1 & g & E & _ & Hi & _).
  - reflexivity.
  - simpl. intuition discriminate.
  - cbn [ino m]. lia.
  - assert (E1 : serve (P := ia32) (Mount 0x0300 (Some 100) :: churn 200 N) boot
                 = Ok (fs1, assigned (Ptr 100) m ++ g)).
    { rewrite serve_mount, Em. cbn [obind]. rewrite E. reflexivity. }
    assert (Hmax : ino fs1 = INT_MAX) by (cbn [ino m] in Hi; lia).
    exists fs1, (assigned (Ptr 100) m ++ g).
    split; [exact E1|]. split; [exact Hmax|].
    split; [apply alloc_counter_overflow; exact Hmax|].
    rewrite serve_app, E1. cbn [obind]. rewrite serve_alloc.
    rewrite (alloc_counter_overflow 200 fs1 Hmax). reflexivity.
Qed.

(** ** Directory iteration *)

Section ReaddirFacts.

Context {P : Platform}.

Lemma read_array_padded (s : cstring) :
  forall n k : nat,
    ~ In NUL s -> (length s < n)%nat -> (n <= length s + k)%nat ->
    read_array (firstn n (s ++ repeat NUL k)) = s.
Proof.
  induction s as [|c s IH]; intros n k Hnul Hlt Hle.
  - destruct n as [|n]; [simpl in Hlt; lia|].
    destruct k as [|k]; [simpl in Hle; lia|]. reflexivity.
  - destruct n as [|n]; [simpl in Hlt; lia|]. simpl.
    destruct (Ascii.eqb_spec c NUL) as [E|_].
    + exfalso. apply Hnul. left. exact E.
    + f_equal. apply IH.
      * intros Hin. apply Hnul. right. exact Hin.
      * simpl in Hlt. lia.
      * simpl in Hle. lia.
Qed.

(** A name shorter than the field is read back unchanged. *)
Lemma read_array_strncpy (n : nat) (s : cstring) :
  ~ In NUL s -> (length s < n)%nat -> read_array (strncpy n s) = s.
Proof. intros Hnul Hlt. unfold strncpy. apply read_array_padded; auto; lia. Qed.

Lemma last_cons_default {A : Type} (l : list A) (a d : A) :
  last (a :: l) d = last l a.
Proof.
  revert a d. induction l as [|b l IH]; intros a d; [reflexivity|].
  change (last (a :: b :: l) d) with (last (b :: l) d).
  rewrite !IH. reflexivity.
Qed.

Lemma listing_step (T : dirs) (dir : Z) (i : Z) (n : nat) (dent : dirent)
    (cur : option link) :
  listing T dir i (S n) dent cur
  = ('(res, dent', cur') <- devfs_dentry_readdir T dir i dent cur ;;
     rest <- listing T dir (i + 1) n dent' cur' ;;
     Ok ((res, dent') :: rest)).
Proof. reflexivity. Qed.

(** The walk from the [k]-th child on: the cursor is set by the call
    with index 2 and carried by the calls after it. *)
Lemma listing_rest (T : dirs) (dir : Z) (rest : list child) :
  forall (pre : list child) (i : Z) (dent : dirent) (cur : option link),
    T dir = pre ++ rest ->
    2 <= i ->
    (i = 2 -> pre = []) ->
    (2 < i -> cur = Some (dir, length pre)) ->
    listing T dir i (S (length rest)) dent cur
    = Ok (map (fun c => (0, entry_of c)) rest
          ++ [(-1, last (map entry_of rest) dent)]).
Proof.
  induction rest as [|c rest IH]; intros pre i dent cur HT Hi H2 Hgt.
  - rewrite app_nil_r in HT. cbn [listing length].
    unfold devfs_dentry_readdir.
    destruct (Z.eqb_spec i 0) as [?|_]; [lia|].
    destruct (Z.eqb_spec i 1) as [?|_]; [lia|].
    assert (Hc : (if i =? 2 then Some (dir, 0%nat) else cur)
                 = Some (dir, length pre)).
    { destruct (Z.eqb_spec i 2) as [E|N].
      - rewrite (H2 E). reflexivity.
      - apply Hgt. lia. }
    rewrite Hc, HT, Z.eqb_refl, Nat.eqb_refl. reflexivity.
  - cbn [length]. rewrite listing_step. unfold devfs_dentry_readdir.
    destruct (Z.eqb_spec i 0) as [?|_]; [lia|].
    destruct (Z.eqb_spec i 1) as [?|_]; [lia|].
    assert (Hc : (if i =? 2 then Some (dir, 0%nat) else cur)
                 = Some (dir, length pre)).
    { destruct (Z.eqb_spec i 2) as [E|N].
      - rewrite (H2 E). reflexivity.
      - apply Hgt. lia. }
    rewrite Hc, HT, Z.eqb_refl.
    destruct (Nat.eqb_spec (length pre) (length (pre ++ c :: rest))) as [E|_].
    { rewrite length_app in E. simpl in E. lia. }
    rewrite nth_error_app2 by lia. rewrite Nat.sub_diag.
    cbn [andb nth_error deliver obind].
    cbn [d_ino].
    change (mk_dirent (c_ino c) (strncpy D_NAME_LEN (c_name c))) with (entry_of c).
    rewrite (IH (pre ++ [c]) (i + 1) (entry_of c) (Some (dir, S (length pre)))).
    + cbn [obind map app]. rewrite last_cons_default. reflexivity.
    + rewrite HT, <- app_assoc. reflexivity.
    + lia.
    + intros E. lia.
    + intros _. rewrite length_app. simpl. f_equal. f_equal. lia.
Qed.

End ReaddirFacts.

(** C7: [devfs_dentry_readdir] at index 0 yields ".", at index 1 yields
    "..", and calls with the indices 2, 3, ... yield the children of the
    directory, each once and in list order, with status 0 (the name cut to
    the size of the field), and then -1 once the list is exhausted. *)
Theorem readdir_lists_children
    {P : Platform} (T : dirs) (dir : Z) (dent : dirent) (cur : option link) :
  (3 <= D_NAME_LEN)%nat ->
  (exists d0,
     devfs_dentry_readdir T dir 0 dent cur = Ok (0, d0, cur)
     /\ read_array (d_name d0) = lit ".")
  /\ (exists d1,
        devfs_dentry_readdir T dir 1 dent cur = Ok (0, d1, cur)
        /\ read_array (d_name d1) = lit "..")
  /\ listing T dir 2 (S (length (T dir))) dent cur
     = Ok (map (fun c => (0, entry_of c)) (T dir)
           ++ [(-1, last (map entry_of (T dir)) dent)]).
Proof.
  intros HN. split; [|split].
  - eexists. split; [reflexivity|]. simpl d_name.
    apply read_array_strncpy; [|simpl; lia].
    simpl. intros [E|[]]. discriminate.
  - eexists. split; [reflexivity|]. simpl d_name.
    apply read_array_strncpy; [|simpl; lia].
    simpl. intros [E|[E|[]]]; discriminate.
  - apply (listing_rest T dir (T dir) []); try reflexivity; try lia.
Qed.

Lemma readdir_lists_children_witness :
  let T := fun d : Z =>
             if d =? 1 then [mk_child (lit "zero") 1; mk_child (lit "tty1") 2]
             else [] in
  listing (P := ia32) T 1 2 3 (mk_dirent 0 []) None
  = Ok [(0, entry_of (P := ia32) (mk_child (lit "zero") 1));
        (0, entry_of (P := ia32) (mk_child (lit "tty1") 2));
        (-1, entry_of (P := ia32) (mk_child (lit "tty1") 2))].
Proof.
  intros T.
  refine (proj2 (proj2 (readdir_lists_children (P := ia32) T 1
                          (mk_dirent 0 []) None _))).
  simpl. lia.
Defined.

(** * Further properties of the two files *)

(** ** [split_path] on every path *)

Section SplitPathShape.

Context {P : Platform}.

Lemma store_inv (cap : nat) (s r : cstring) :
  store cap s = Ok r -> r = s /\ (length s < cap)%nat.
Proof.
  unfold store. destruct (Nat.ltb_spec (length s) cap); [|discriminate].
  intros E. injection E as E. auto.
Qed.

(** A string with a separator has a last one. *)
Lemma last_sep_split (s : cstring) :
  In SLASH s -> exists pre post, s = pre ++ SLASH :: post /\ ~ In SLASH post.
Proof.
  induction s as [|c s IH]; intros Hin; [contradiction|].
  destruct (in_dec ascii_dec SLASH s) as [Hs|Hs].
  - destruct (IH Hs) as (pre & post & E & Hp).
    exists (c :: pre), post. rewrite E. auto.
  - destruct Hin as [E|Hin]; [|contradiction].
    exists [], s. rewrite E. auto.
Qed.

(** The loop ends at 0 when no separator lies beyond the first character. *)
Lemma scan_back_head (c : ascii) (rest : cstring) :
  ~ In SLASH rest -> scan_back (c :: rest) (length (c :: rest)) = 0%nat.
Proof.
  intros Hr. destruct (ascii_dec c SLASH) as [E|N].
  - subst c. exact (scan_back_split [] rest Hr).
  - apply scan_back_no_sep; [|lia]. intros [H|H]; auto.
Qed.

(** What the code does when the last separator is not the first
    character: [k] decides whether the leaf starts after it or at it. *)
Lemma split_path_at_last_sep (c : ascii) (pre post : cstring) :
  ~ In SLASH post ->
  split_path ((c :: pre) ++ SLASH :: post)
  = if INT_MAX <? Z.of_nat (length ((c :: pre) ++ SLASH :: post)) then Undefined
    else parent <- store PATH_MAX (c :: pre) ;;
         name <- store NAME_MAX (if Ascii.eqb c SLASH then post else SLASH :: post) ;;
         Ok (parent, name).
Proof.
  intros Hpost. unfold split_path.
  destruct (INT_MAX <? Z.of_nat (length ((c :: pre) ++ SLASH :: post))); [reflexivity|].
  rewrite (scan_back_split (c :: pre) post Hpost).
  change (0 <? length (c :: pre))%nat with true. cbv iota.
  rewrite firstn_app, firstn_all, Nat.sub_diag. cbn [firstn]. rewrite app_nil_r.
  change (nth 0 ((c :: pre) ++ SLASH :: post) NUL) with c.
  destruct (Ascii.eqb c SLASH).
  - replace (length (c :: pre) + 1)%nat with (length ((c :: pre) ++ [SLASH]))
      by (rewrite length_app; reflexivity).
    replace ((c :: pre) ++ SLASH :: post) with (((c :: pre) ++ [SLASH]) ++ post)
      by (rewrite <- app_assoc; reflexivity).
    rewrite skipn_app, skipn_all, Nat.sub_diag. reflexivity.
  - rewrite Nat.add_0_r, skipn_app, skipn_all, Nat.sub_diag. reflexivity.
Qed.

(** What the code does when no separator lies beyond the first
    character: the first character is dropped. *)
Lemma split_path_at_head (c : ascii) (rest : cstring) :
  ~ In SLASH rest ->
  split_path (c :: rest)
  = if INT_MAX <? Z.of_nat (length (c :: rest)) then Undefined
    else parent <- store PATH_MAX [SLASH] ;;
         name <- store NAME_MAX
                   (if Ascii.eqb (nth 0 rest NUL) NUL then [DOT] else rest) ;;
         Ok (parent, name).
Proof.
  intros Hr. unfold split_path.
  destruct (INT_MAX <? Z.of_nat (length (c :: rest))); [reflexivity|].
  rewrite (scan_back_head c rest Hr). change (0 <? 0)%nat with false. cbv iota.
  destruct (store PATH_MAX [SLASH]) as [parent|]; [|reflexivity].
  cbn [obind]. unfold char_at. destruct rest as [|d rest']; [reflexivity|].
  cbn. destruct (Ascii.eqb d NUL); reflexivity.
Qed.

End SplitPathShape.

(** X1: on a path that starts with the separator, whenever [split_path]
    returns, the leaf holds no separator, and either the parent is the root
    and the path is the separator followed by the leaf (the leaf being "."
    for the path "/"), or the path is the parent, a separator and the
    leaf. *)
Theorem split_path_absolute_recomposes
    {P : Platform} (rest parent name : cstring) :
  ~ In NUL rest ->
  split_path (SLASH :: rest) = Ok (parent, name) ->
  ~ In SLASH name
  /\ ((parent = [SLASH] /\ (rest = name \/ (rest = [] /\ name = [DOT])))
      \/ SLASH :: rest = parent ++ SLASH :: name).
Proof.
  intros Hnul E.
  destruct (in_dec ascii_dec SLASH rest) as [Hin|Hno].
  - destruct (last_sep_split rest Hin) as (pre & post & Er & Hpost). subst rest.
    change (SLASH :: pre ++ SLASH :: post) with ((SLASH :: pre) ++ SLASH :: post) in E.
    rewrite (split_path_at_last_sep SLASH pre post Hpost) in E.
    destruct (INT_MAX <? _); [discriminate|].
    destruct (store PATH_MAX (SLASH :: pre)) as [p|] eqn:Ep; [|discriminate].
    cbn [obind] in E. rewrite Ascii.eqb_refl in E.
    destruct (store NAME_MAX post) as [n|] eqn:En; [|discriminate].
    cbn [obind] in E. injection E as <- <-.
    apply store_inv in Ep, En. destruct Ep as [-> _], En as [-> _].
    split; [exact Hpost|]. right. reflexivity.
  - rewrite (split_path_at_head SLASH rest Hno) in E.
    destruct (INT_MAX <? _); [discriminate|].
    destruct (store PATH_MAX [SLASH]) as [p|] eqn:Ep; [|discriminate].
    cbn [obind] in E.
    destruct (store NAME_MAX _) as [n|] eqn:En in E; [|discriminate].
    cbn [obind] in E. injection E as <- <-.
    apply store_inv in Ep, En. destruct Ep as [-> _], En as [-> _].
    destruct rest as [|d rest'].
    + cbn. split; [intros [H|[]]; discriminate|]. left. auto.
    + cbn [nth]. destruct (Ascii.eqb_spec d NUL) as [E0|_].
      { exfalso. apply Hnul. left. auto. }
      split; [exact Hno|]. left. auto.
Qed.

Lemma split_path_absolute_recomposes_witness :
  ~ In SLASH (lit "tty1")
  /\ ((lit "/dev" = [SLASH] /\ (lit "dev/tty1" = lit "tty1"
                              \/ (lit "dev/tty1" = [] /\ lit "tty1" = [DOT])))
      \/ SLASH :: lit "dev/tty1" = lit "/dev" ++ SLASH :: lit "tty1").
Proof.
  apply (split_path_absolute_recomposes (P := ia32)
           (lit "dev/tty1") (lit "/dev") (lit "tty1")).
  - simpl. intuition discriminate.
  - vm_compute. reflexivity.
Defined.

(** X2: [split_path] returns on every non-empty path that is shorter
    than both buffers, and what it leaves in each buffer fits it with its
    terminator; on the empty path it reads past the terminator. *)
Theorem split_path_defined
    {P : Platform} (filepath : cstring) :
  filepath <> [] ->
  (length filepath < PATH_MAX)%nat ->
  (length filepath < NAME_MAX)%nat ->
  Z.of_nat (length filepath) <= INT_MAX ->
  (exists parent name,
     split_path filepath = Ok (parent, name)
     /\ (length parent < PATH_MAX)%nat /\ (length name < NAME_MAX)%nat)
  /\ split_path [] = Undefined.
Proof.
  intros Hne Hp Hn Hi. split; [|apply split_path_empty].
  destruct filepath as [|c rest]; [contradiction|].
  destruct (in_dec ascii_dec SLASH rest) as [Hin|Hno].
  - destruct (last_sep_split rest Hin) as (pre & post & Er & Hpost). subst rest.
    change (c :: pre ++ SLASH :: post) with ((c :: pre) ++ SLASH :: post) in *.
    rewrite (split_path_at_last_sep c pre post Hpost).
    destruct (Z.ltb_spec INT_MAX (Z.of_nat (length ((c :: pre) ++ SLASH :: post))));
      [lia|].
    rewrite length_app in Hp, Hn. simpl in Hp, Hn.
    rewrite store_fits by (simpl; lia). cbn [obind].
    rewrite store_fits by (destruct (Ascii.eqb c SLASH); simpl; lia).
    cbn [obind]. do 2 eexists. split; [reflexivity|].
    split; [simpl; lia|]. destruct (Ascii.eqb c SLASH); simpl; lia.
  - rewrite (split_path_at_head c rest Hno).
    destruct (Z.ltb_spec INT_MAX (Z.of_nat (length (c :: rest)))); [lia|].
    simpl in Hp, Hn.
    rewrite store_fits by (simpl; lia). cbn [obind].
    rewrite store_fits
      by (destruct (Ascii.eqb (nth 0 rest NUL) NUL); simpl; lia).
    cbn [obind]. do 2 eexists. split; [reflexivity|].
    split; [simpl; lia|].
    destruct (Ascii.eqb (nth 0 rest NUL) NUL); simpl; lia.
Qed.

Lemma split_path_defined_witness :
  (exists parent name,
     split_path (P := ia32) (lit "dev/") = Ok (parent, name)
     /\ (length parent < 4096)%nat /\ (length name < 255)%nat)
  /\ split_path (P := ia32) [] = Undefined.
Proof.
  apply (split_path_defined (P := ia32) (lit "dev/")).
  - discriminate.
  - simpl. lia.
  - simpl. lia.
  - vm_compute. discriminate.
Defined.

(** X3: on a path that does not start with the separator, the code
    leaves the last separator at the head of the leaf when the path has
    one, and drops the first character of the path when it has none. *)
Theorem split_path_relative
    {P : Platform} (c : ascii) (pre post rest : cstring) :
  c <> SLASH ->
  (~ In SLASH post ->
   (S (length pre) < PATH_MAX)%nat -> (S (length post) < NAME_MAX)%nat ->
   Z.of_nat (length ((c :: pre) ++ SLASH :: post)) <= INT_MAX ->
   split_path ((c :: pre) ++ SLASH :: post) = Ok (c :: pre, SLASH :: post))
  /\ (~ In SLASH rest -> ~ In NUL rest -> rest <> [] ->
      (length rest < NAME_MAX)%nat -> (1 < PATH_MAX)%nat ->
      Z.of_nat (length rest) < INT_MAX ->
      split_path (c :: rest) = Ok ([SLASH], rest)).
Proof.
  intros Hc. split.
  - intros Hpost Hp Hn Hi. rewrite (split_path_at_last_sep c pre post Hpost).
    destruct (Z.ltb_spec INT_MAX (Z.of_nat (length ((c :: pre) ++ SLASH :: post))));
      [lia|].
    destruct (Ascii.eqb_spec c SLASH) as [E|_]; [contradiction|].
    rewrite !store_fits by (simpl; lia). reflexivity.
  - intros Hr Hnul Hne Hn Hp Hi.
    destruct rest as [|d rest']; [contradiction|].
    apply (split_path_bare_name c (d :: rest')); try assumption.
    + intros [E|H]; contradiction.
    + simpl in Hn. lia.
Qed.

Lemma split_path_relative_witness :
  split_path (P := ia32) (lit "dev/tty1") = Ok (lit "dev", lit "/tty1")
  /\ split_path (P := ia32) (lit "tty1") = Ok (lit "/", lit "ty1").
Proof.
  destruct (split_path_relative (P := ia32) "d"%char (lit "ev") (lit "tty1") [])
    as [A _]; [discriminate|].
  destruct (split_path_relative (P := ia32) "t"%char [] [] (lit "ty1"))
    as [_ B]; [discriminate|].
  split.
  - apply A; [simpl; intuition discriminate|simpl; lia|simpl; lia|
              vm_compute; discriminate].
  - apply B; [simpl; intuition discriminate|simpl; intuition discriminate|
              discriminate|simpl; lia|simpl; lia|vm_compute; reflexivity].
Defined.

(** ** [sys_mknod] on every kernel *)

(** X4: when the path does not resolve, its parent does, [vfs_mknod]
    returns 0 and the path resolves afterwards, [sys_mknod] returns 0 and
    its last call takes one reference, on the entry just found. *)
Theorem sys_mknod_success
    {P : Platform} {W : Type} (K : kernel W)
    (pathname parent name : cstring) (mode dev : Z) (de dchild : dentry)
    (w w1 w2 w3 w4 : W) :
  k_named K pathname w = (None, w1) ->
  split_path pathname = Ok (parent, name) ->
  k_named K parent w1 = (Some de, w2) ->
  k_vfs_mknod K (inod de) mode dev w2 = (0, w3) ->
  k_named K pathname w3 = (Some dchild, w4) ->
  exec K (sys_mknod pathname mode dev) w
  = (Ok 0, k_dget K (Some dchild) w4,
     [EvNamed pathname None; EvNamed parent (Some de);
      EvMknod (inod de) mode dev 0; EvNamed pathname (Some dchild);
      EvDget (Some dchild)]).
Proof.
  intros H1 Hs H2 H3 H4. unfold sys_mknod.
  rewrite exec_do, (perform_named K _ _ _ _ H1), Hs.
  rewrite exec_do, (perform_named K _ _ _ _ H2).
  rewrite exec_do, (perform_vfs_mknod K _ _ _ _ _ _ H3).
  change (0 =? 0) with true. cbv iota.
  rewrite exec_do, (perform_named K _ _ _ _ H4).
  reflexivity.
Qed.

Lemma sys_mknod_success_witness :
  exec linking_kernel (sys_mknod (P := ia32) (lit "/dev/zero") 0x2000 0x0105) 0%nat
  = (Ok 0, 1%nat,
     [EvNamed (lit "/dev/zero") None;
      EvNamed (lit "/dev") (Some (mk_dentry 2 20));
      EvMknod 20 0x2000 0x0105 0;
      EvNamed (lit "/dev/zero") (Some (mk_dentry 3 30));
      EvDget (Some (mk_dentry 3 30))]).
Proof.
  apply (sys_mknod_success (P := ia32) linking_kernel
           (lit "/dev/zero") (lit "/dev") (lit "zero") 0x2000 0x0105
           (mk_dentry 2 20) (mk_dentry 3 30) 0%nat 0%nat 0%nat 1%nat 1%nat);
    vm_compute; reflexivity.
Defined.

(** X5: when [vfs_mknod] fails, [sys_mknod] returns its result as it is
    and makes no further call: the path is not resolved again and no
    reference is taken. *)
Theorem sys_mknod_mknod_failure
    {P : Platform} {W : Type} (K : kernel W)
    (pathname parent name : cstring) (mode dev res : Z) (de : dentry)
    (w w1 w2 w3 : W) :
  k_named K pathname w = (None, w1) ->
  split_path pathname = Ok (parent, name) ->
  k_named K parent w1 = (Some de, w2) ->
  k_vfs_mknod K (inod de) mode dev w2 = (res, w3) ->
  res <> 0 ->
  exec K (sys_mknod pathname mode dev) w
  = (Ok res, w3,
     [EvNamed pathname None; EvNamed parent (Some de);
      EvMknod (inod de) mode dev res]).
Proof.
  intros H1 Hs H2 H3 Hres. unfold sys_mknod.
  rewrite exec_do, (perform_named K _ _ _ _ H1), Hs.
  rewrite exec_do, (perform_named K _ _ _ _ H2).
  rewrite exec_do, (perform_vfs_mknod K _ _ _ _ _ _ H3).
  destruct (Z.eqb_spec res 0) as [E|_]; [contradiction|]. reflexivity.
Qed.

Lemma sys_mknod_mknod_failure_witness :
  exec failing_kernel (sys_mknod (P := ia32) (lit "/dev/zero") 0x2000 0x0105) 0%nat
  = (Ok (-12), 0%nat,
     [EvNamed (lit "/dev/zero") None;
      EvNamed (lit "/dev") (Some (mk_dentry 2 20));
      EvMknod 20 0x2000 0x0105 (-12)]).
Proof.
  apply (sys_mknod_mknod_failure (P := ia32) failing_kernel
           (lit "/dev/zero") (lit "/dev") (lit "zero") 0x2000 0x0105 (-12)
           (mk_dentry 2 20) 0%nat 0%nat 0%nat 0%nat);
    vm_compute; try reflexivity; discriminate.
Defined.

Section SysMknodRuns.

Context {P : Platform} {W : Type} (K : kernel W).

(** Every run of [sys_mknod] has one of six shapes. *)
Lemma sys_mknod_runs (pathname : cstring) (mode dev : Z) (w : W) :
  let run := exec K (sys_mknod pathname mode dev) w in
  (exists de, snd run = [EvNamed pathname (Some de)]
              /\ fst (fst run) = Ok (- EEXIST))
  \/ (split_path pathname = Undefined
      /\ snd run = [EvNamed pathname None] /\ fst (fst run) = Undefined)
  \/ (exists parent name,
        split_path pathname = Ok (parent, name)
        /\ ((snd run = [EvNamed pathname None; EvNamed parent None]
             /\ fst (fst run) = Ok (-1))
            \/ exists de,
                 (exists res,
                    res <> 0
                    /\ snd run = [EvNamed pathname None; EvNamed parent (Some de);
                                  EvMknod (inod de) mode dev res]
                    /\ fst (fst run) = Ok res)
                 \/ (exists dchild,
                       snd run = [EvNamed pathname None; EvNamed parent (Some de);
                                  EvMknod (inod de) mode dev 0;
                                  EvNamed pathname dchild; EvDget dchild]
                       /\ fst (fst run)
                          = Ok (match dchild with None => -1 | Some _ => 0 end)))).
Proof.
  intros run. unfold run, sys_mknod. rewrite exec_do.
  destruct (k_named K pathname w) as [[de|] w1] eqn:H1;
    rewrite (perform_named K _ _ _ _ H1).
  { left. exists de. split; reflexivity. }
  right. destruct (split_path pathname) as [[parent name]|].
  2:{ left. repeat split. }
  right. exists parent, name. split; [reflexivity|]. rewrite exec_do.
  destruct (k_named K parent w1) as [[de|] w2] eqn:H2;
    rewrite (perform_named K _ _ _ _ H2).
  2:{ left. split; reflexivity. }
  right. exists de. rewrite exec_do.
  destruct (k_vfs_mknod K (inod de) mode dev w2) as [res w3] eqn:H3.
  rewrite (perform_vfs_mknod K _ _ _ _ _ _ H3).
  destruct (Z.eqb_spec res 0) as [E|N].
  - right. subst res. rewrite exec_do.
    destruct (k_named K pathname w3) as [dchild w4] eqn:H4.
    rewrite (perform_named K _ _ _ _ H4).
    exists dchild. destruct dchild; split; reflexivity.
  - left. exists res. repeat split. exact N.
Qed.

End SysMknodRuns.

(** X7: in every run of [sys_mknod], on every kernel, [vfs_mknod] is
    called at most once, with the mode and the device identifier of the
    caller; [dget] is called at most once, exactly when [vfs_mknod]
    returned 0; and when it is called, the run ends with that [vfs_mknod],
    the resolution of the path that follows it, and [dget] on what that
    resolution returned. *)
Theorem sys_mknod_calls
    {P : Platform} {W : Type} (K : kernel W)
    (pathname : cstring) (mode dev : Z) (w : W) :
  let t := snd (exec K (sys_mknod pathname mode dev) w) in
  (length (filter is_mknod t) <= 1)%nat
  /\ (length (filter is_dget t) <= 1)%nat
  /\ (forall idir m d r, In (EvMknod idir m d r) t -> m = mode /\ d = dev)
  /\ (existsb is_dget t = true <-> exists idir, In (EvMknod idir mode dev 0) t)
  /\ (forall d,
        In (EvDget d) t ->
        exists t0 idir,
          t = t0 ++ [EvMknod idir mode dev 0; EvNamed pathname d; EvDget d]).
Proof.
  intros t. unfold t.
  destruct (sys_mknod_runs K pathname mode dev w)
    as [(de & -> & _)
       |[(_ & -> & _)
        |(parent & name & _ &
          [(-> & _)
          |(de & [(res & Hres & -> & _)|(dchild & -> & _)])])]];
    (split; [cbn; lia|]); (split; [cbn; lia|]);
    (split; [intros idir m d r H; in_events H; auto|]);
    (split; [|intros d H; in_events H;
              try (eexists (_ :: _ :: nil), _; reflexivity)]);
    cbn [existsb is_dget orb];
    (split; [intros E; try discriminate E
            |intros [idir H]; in_events H; auto]).
  exists (inod de). simpl. auto 10.
Qed.

(** ** Dispatch on every identifier *)

(** X8: for an identifier that is none of the case labels, read and
    write both return [-ENODEV] and touch neither the buffer nor the
    drivers. *)
Theorem dispatch_unknown_device
    {P : Platform} {D : Drivers}
    (inode : inode) (buf : list byte) (count offset : Z) (s : drv) :
  ~ In (i_dev inode) case_labels ->
  devfs_inode_read inode buf count offset s = Ok (- ENODEV, buf, s)
  /\ devfs_inode_write inode buf count offset s = Ok (- ENODEV, s).
Proof.
  intros H. unfold case_labels in H. simpl in H.
  assert (N : forall l, In l case_labels -> (i_dev inode =? l) = false).
  { intros l Hl. apply Z.eqb_neq. intros E. unfold case_labels in Hl.
    simpl in Hl. rewrite E in H. tauto. }
  unfold devfs_inode_read, devfs_inode_write, is_tty.
  rewrite !N by (unfold case_labels; simpl; auto 10). split; reflexivity.
Qed.

Lemma dispatch_unknown_device_witness :
  devfs_inode_read (P := ia32) (D := idle_drivers)
    (mk_inode 0 0x0300 0x4000) [x41; x42] 2 0 tt = Ok (-19, [x41; x42], tt)
  /\ devfs_inode_write (P := ia32) (D := idle_drivers)
       (mk_inode 0 0x0300 0x4000) [x41; x42] 2 0 tt = Ok (-19, tt).
Proof.
  apply (dispatch_unknown_device (P := ia32) (D := idle_drivers)
           (mk_inode 0 0x0300 0x4000) [x41; x42] 2 0 tt).
  simpl. intuition discriminate.
Defined.

(** X9: for the six terminal identifiers read and write are the
    terminal driver's, called with the identifier, the buffer and the
    count, whatever the offset; for the ramdisk identifier they are the
    ramdisk driver's, called with the buffer, the count and the offset.
    The driver's result is returned as it is. *)
Theorem dispatch_delegates
    {P : Platform} {D : Drivers}
    (inode : inode) (buf : list byte) (count offset : Z) (s : drv) :
  NoDup case_labels ->
  (In (i_dev inode)
      [DEV_TTY; DEV_CONSOLE; DEV_CONSOLE1; DEV_CONSOLE2; DEV_CONSOLE3;
       DEV_CONSOLE4] ->
   devfs_inode_read inode buf count offset s = tty_read (i_dev inode) buf count s
   /\ devfs_inode_write inode buf count offset s
      = tty_write (i_dev inode) buf count s)
  /\ (i_dev inode = DEV_INITRD ->
      devfs_inode_read inode buf count offset s = ramdisk_read buf count offset s
      /\ devfs_inode_write inode buf count offset s
         = ramdisk_write buf count offset s).
Proof.
  intros Hl. split.
  - intros Hin.
    assert (T : is_tty (i_dev inode) = true).
    { unfold is_tty. simpl in Hin.
      repeat (destruct Hin as [<-|Hin]; [rewrite Z.eqb_refl, ?orb_true_r; reflexivity|]).
      contradiction. }
    unfold devfs_inode_read, devfs_inode_write. rewrite T. split; reflexivity.
  - intros E.
    assert (T : is_tty DEV_INITRD = false).
    { unfold case_labels, is_tty in *.
      repeat match goal with
             | N : NoDup (_ :: _) |- _ => inversion N; clear N; subst
             end.
      repeat match goal with
             | N : ~ In _ _ |- _ => simpl in N
             end.
      repeat (apply orb_false_intro); apply Z.eqb_neq; intuition congruence. }
    unfold devfs_inode_read, devfs_inode_write.
    rewrite E, T, Z.eqb_refl. split; reflexivity.
Qed.

Lemma dispatch_delegates_witness :
  devfs_inode_read (P := ia32) (D := idle_drivers)
    (mk_inode 3 0x0401 0x2000) [x41; x42] 2 7 tt = Ok (0, [x41; x42], tt)
  /\ devfs_inode_write (P := ia32) (D := idle_drivers)
       (mk_inode 4 0x0100 0x6000) [x41; x42] 2 7 tt = Ok (0, tt).
Proof.
  assert (L : NoDup (case_labels (P := ia32))) by labels_distinct.
  split.
  - refine (proj1 (proj1 (dispatch_delegates (P := ia32) (D := idle_drivers)
                            (mk_inode 3 0x0401 0x2000) [x41; x42] 2 7 tt L) _)).
    simpl. auto.
  - refine (proj2 (proj2 (dispatch_delegates (P := ia32) (D := idle_drivers)
                            (mk_inode 4 0x0100 0x6000) [x41; x42] 2 7 tt L) _)).
    reflexivity.
Defined.

(** ** Names and lookups *)

Section NameFacts.

Context {P : Platform}.

Lemma name_to_dev_from_range (rows : list (cstring * Z)) (name : cstring)
    (dev : Z) :
  name_to_dev_from rows name dev = dev
  \/ In (name, name_to_dev_from rows name dev) rows.
Proof.
  induction rows as [|[n d] rows IH]; simpl; [left; reflexivity|].
  destruct (strcmp_eq n name) eqn:E.
  - apply strcmp_eq_iff in E. subst n. right. left. reflexivity.
  - destruct IH as [IH|IH]; [left; exact IH|right; right; exact IH].
Qed.

Lemma table_names_resolve (row : cstring * Z) :
  In row dev_name_map -> name_to_dev (fst row) = snd row.
Proof.
  unfold dev_name_map. simpl.
  intros H. repeat (destruct H as [<-|H]; [reflexivity|]). contradiction.
Qed.

Lemma table_names_not_dots (row : cstring * Z) :
  In row dev_name_map -> fst row <> lit "." /\ fst row <> lit "..".
Proof.
  unfold dev_name_map. simpl.
  intros H. repeat (destruct H as [<-|H]; [split; discriminate|]). contradiction.
Qed.

Lemma lookup_from_hit (nodes : registry) (dev a : Z) :
  lookup_from nodes dev NULL = Ptr a ->
  exists pre nd post,
    nodes = pre ++ (a, nd) :: post
    /\ Forall (fun x => ~ carries dev x) pre /\ i_dev nd = dev.
Proof.
  induction nodes as [|[b n] nodes IH]; simpl; [discriminate|].
  destruct (Z.eqb_spec (i_dev n) dev) as [E|N].
  - intros H. injection H as <-. exists [], n, nodes. repeat split; auto.
  - intros H. destruct (IH H) as (pre & nd & post & -> & Hpre & Hnd).
    exists ((b, n) :: pre), nd, post. repeat split; auto.
Qed.

Lemma lookup_other_name (nodes : registry) (dir : pointer) (name : cstring) :
  name <> lit "." -> name <> lit ".." ->
  devfs_lookup nodes dir name = lookup_from nodes (name_to_dev name) NULL.
Proof.
  intros H1 H2. unfold devfs_lookup.
  rewrite (strcmp_eq_false _ _ H1), (strcmp_eq_false _ _ H2). reflexivity.
Qed.

End NameFacts.

(** X10: [name_to_dev] returns the identifier of the row for each of
    the six names of the table, and for every name what it returns is
    either 0xFFFF or the identifier that the table gives to that very
    name. *)
Theorem name_to_dev_table {P : Platform} :
  (forall row, In row dev_name_map -> name_to_dev (fst row) = snd row)
  /\ (forall name,
        name_to_dev name = 0xFFFF
        \/ In (name, name_to_dev name) dev_name_map).
Proof.
  split.
  - exact table_names_resolve.
  - intros name. unfold name_to_dev. apply name_to_dev_from_range.
Qed.

(** X11: for a name of the table, [devfs_lookup] returns the first node
    of the registry that carries the identifier of the row, whatever the
    directory passed, and null exactly when no node carries it. *)
Theorem lookup_table_name
    {P : Platform} (nodes : registry) (dir : pointer) (row : cstring * Z) :
  In row dev_name_map ->
  (devfs_lookup nodes dir (fst row) = NULL
   <-> Forall (fun x => ~ carries (snd row) x) nodes)
  /\ (forall a,
        devfs_lookup nodes dir (fst row) = Ptr a
        <-> exists pre nd post,
              nodes = pre ++ (a, nd) :: post
              /\ Forall (fun x => ~ carries (snd row) x) pre
              /\ i_dev nd = snd row).
Proof.
  intros Hrow. destruct (table_names_not_dots row Hrow) as [H1 H2].
  rewrite (lookup_other_name nodes dir (fst row) H1 H2).
  rewrite (table_names_resolve row Hrow). split.
  - apply lookup_from_null.
  - intros a. split.
    + apply lookup_from_hit.
    + intros (pre & nd & post & -> & Hpre & Hnd).
      apply lookup_from_first; assumption.
Qed.

Lemma lookup_table_name_witness :
  let nodes := [(100, mk_inode 0 0x0300 0x4000); (200, mk_inode 1 0x0401 0x2000);
                (300, mk_inode 2 0x0401 0x2000)] in
  devfs_lookup (P := ia32) nodes (Ptr 100) (lit "tty1") = Ptr 200.
Proof.
  intros nodes.
  destruct (lookup_table_name (P := ia32) nodes (Ptr 100) (lit "tty1", 0x0401))
    as [_ H].
  - simpl. auto.
  - apply (H 200). exists [(100, mk_inode 0 0x0300 0x4000)],
      (mk_inode 1 0x0401 0x2000), [(300, mk_inode 2 0x0401 0x2000)].
    repeat split. repeat constructor. unfold carries. simpl. discriminate.
Defined.

(** X12: a node found by [devfs_lookup] under a name other than "." and
    ".." carries 0xFFFF or an identifier of the table; with distinct case
    labels it is therefore never a node of the null device, of [DEV_TTY] or
    of [DEV_CONSOLE], unless that identifier is 0xFFFF itself: the table
    has no name for them. *)
Theorem lookup_reaches_named_devices_only
    {P : Platform} (nodes : registry) (dir : pointer) (name : cstring) (a : Z) :
  NoDup case_labels ->
  name <> lit "." -> name <> lit ".." ->
  devfs_lookup nodes dir name = Ptr a ->
  exists nd,
    In (a, nd) nodes
    /\ i_dev nd = name_to_dev name
    /\ (i_dev nd = 0xFFFF
        \/ (In (i_dev nd) named_devs
            /\ i_dev nd <> DEV_NULL /\ i_dev nd <> DEV_TTY
            /\ i_dev nd <> DEV_CONSOLE)).
Proof.
  intros Hl H1 H2 E. rewrite (lookup_other_name nodes dir name H1 H2) in E.
  destruct (lookup_from_hit nodes _ a E) as (pre & nd & post & -> & _ & Hnd).
  exists nd. split; [apply in_elt|]. split; [exact Hnd|].
  rewrite Hnd. unfold name_to_dev.
  destruct (name_to_dev_from_range dev_name_map name 0xFFFF) as [R|R];
    [left; exact R|right].
  change (name_to_dev_from dev_name_map name 65535) with (name_to_dev name) in *.
  assert (Hin : In (name_to_dev name) named_devs).
  { unfold named_devs. change (name_to_dev name) with (snd (name, name_to_dev name)).
    apply in_map. exact R. }
  split; [exact Hin|].
  unfold named_devs, dev_name_map in Hin. simpl in Hin.
  unfold case_labels in Hl.
  repeat match goal with
         | N : NoDup (_ :: _) |- _ => inversion N; clear N; subst
         end.
  repeat match goal with
         | N : ~ In _ _ |- _ => simpl in N
         end.
  repeat split; intros B; rewrite B in Hin; intuition congruence.
Qed.

Lemma lookup_reaches_named_devices_only_witness :
  let nodes := [(100, mk_inode 0 0x0103 0x2000); (200, mk_inode 1 0x0105 0x2000)] in
  exists nd,
    In (200, nd) nodes /\ i_dev nd = name_to_dev (P := ia32) (lit "zero")
    /\ (i_dev nd = 0xFFFF
        \/ (In (i_dev nd) (named_devs (P := ia32))
            /\ i_dev nd <> 0x0103 /\ i_dev nd <> 0x0500 /\ i_dev nd <> 0x0501)).
Proof.
  intros nodes.
  assert (L : NoDup (case_labels (P := ia32))) by labels_distinct.
  apply (lookup_reaches_named_devices_only (P := ia32) nodes (Ptr 100)
           (lit "zero") 200 L); [discriminate|discriminate|reflexivity].
Defined.

(** ** The two scans of the registry *)

Section ScanFacts.

Lemma dev_to_inode_from_pointer (nodes : registry) (dev : Z) (p : pointer) :
  dev_to_inode_from nodes dev p = p /\ nodes = []
  \/ exists a, dev_to_inode_from nodes dev p = Ptr a /\ In a (addresses nodes).
Proof.
  revert p. induction nodes as [|[b n] nodes IH]; intros p; simpl.
  - left. auto.
  - right. destruct (i_dev n =? dev).
    + exists b. auto.
    + destruct (IH (Ptr b)) as [[E ->]|(a & E & Ha)].
      * exists b. simpl. auto.
      * exists a. auto.
Qed.

Lemma deref_unique (nodes : registry) (a : Z) (nd : inode) :
  NoDup (addresses nodes) -> In (a, nd) nodes -> deref nodes a = Some nd.
Proof.
  induction nodes as [|[b n] nodes IH]; simpl; intros Hn Hin; [contradiction|].
  inversion Hn as [|x l Hb Hl]; subst.
  destruct Hin as [E|Hin].
  - injection E as -> ->. rewrite Z.eqb_refl. reflexivity.
  - destruct (Z.eqb_spec b a) as [->|_].
    + exfalso. apply Hb. unfold addresses.
      change a with (fst (a, nd)). apply in_map. exact Hin.
    + apply IH; assumption.
Qed.

Lemma deref_none (nodes : registry) (a : Z) :
  ~ In a (addresses nodes) -> deref nodes a = None.
Proof.
  induction nodes as [|[b n] nodes IH]; simpl; intros H; [reflexivity|].
  destruct (Z.eqb_spec b a) as [->|_]; [exfalso; auto|]. apply IH. auto.
Qed.

Lemma deref_app (l l' : registry) (a : Z) :
  deref (l ++ l') a
  = match deref l a with Some nd => Some nd | None => deref l' a end.
Proof.
  induction l as [|[b n] l IH]; simpl; [reflexivity|].
  destruct (b =? a); [reflexivity|exact IH].
Qed.

Lemma lookup_hit_dev_to_inode (nodes : registry) (dev a : Z) :
  lookup_from nodes dev NULL = Ptr a -> dev_to_inode nodes dev = Ptr a.
Proof.
  intros H.
  destruct (lookup_from_hit nodes dev a H) as (pre & nd & post & -> & Hp & Hn).
  apply dev_to_inode_first_match; assumption.
Qed.

End ScanFacts.

(** X13: [dev_to_inode] never returns null, and returns an
    indeterminate pointer exactly on the empty registry; whenever the scan
    of [devfs_lookup] finds a node for an identifier, [dev_to_inode]
    returns the same node. *)
Theorem scans_agree_on_hits (nodes : registry) (dev : Z) :
  dev_to_inode nodes dev <> NULL
  /\ (dev_to_inode nodes dev = Indeterminate <-> nodes = [])
  /\ (forall a, lookup_from nodes dev NULL = Ptr a ->
                dev_to_inode nodes dev = Ptr a).
Proof.
  unfold dev_to_inode.
  destruct (dev_to_inode_from_pointer nodes dev Indeterminate)
    as [[E ->]|(a & E & Ha)].
  - rewrite E. repeat split; try discriminate.
  - rewrite E. split; [discriminate|]. split.
    + split; [discriminate|]. intros ->. contradiction.
    + intros b Hb. rewrite <- E. apply lookup_hit_dev_to_inode. exact Hb.
Qed.

(** X14: in a registry whose nodes have distinct addresses,
    [devfs_read] and [devfs_write] on an identifier that some node carries
    are the dispatch on the first node that carries it. *)
Theorem devfs_read_write_on_carrier
    {P : Platform} {D : Drivers}
    (pre post : registry) (a : Z) (nd : inode) (dev : Z)
    (buf : list byte) (size off : Z) (s : drv) :
  NoDup (addresses (pre ++ (a, nd) :: post)) ->
  Forall (fun x => ~ carries dev x) pre ->
  i_dev nd = dev ->
  devfs_read (pre ++ (a, nd) :: post) dev buf size off s
  = devfs_inode_read nd buf size off s
  /\ devfs_write (pre ++ (a, nd) :: post) dev buf size off s
     = devfs_inode_write nd buf size off s.
Proof.
  intros Hn Hpre Hnd. unfold devfs_read, devfs_write.
  rewrite (dev_to_inode_first_match pre post a nd dev Hpre Hnd).
  rewrite (deref_unique _ a nd Hn) by apply in_elt.
  split; reflexivity.
Qed.

Lemma devfs_read_write_on_carrier_witness :
  let nodes := [(100, mk_inode 0 0x0300 0x4000); (200, mk_inode 1 0x0105 0x2000);
                (300, mk_inode 2 0x0105 0x2000)] in
  devfs_read (P := ia32) (D := idle_drivers) nodes 0x0105 [x41; x42; x43] 2 0 tt
  = Ok (2, [x00; x00; x43], tt)
  /\ devfs_write (P := ia32) (D := idle_drivers) nodes 0x0105 [x41; x42; x43] 2 0 tt
     = Ok (2, tt).
Proof.
  intros nodes.
  apply (devfs_read_write_on_carrier (P := ia32) (D := idle_drivers)
           [(100, mk_inode 0 0x0300 0x4000)] [(300, mk_inode 2 0x0105 0x2000)]
           200 (mk_inode 1 0x0105 0x2000) 0x0105 [x41; x42; x43] 2 0 tt).
  - simpl. repeat (constructor; [simpl; intuition discriminate|]). constructor.
  - repeat constructor. unfold carries. simpl. discriminate.
  - reflexivity.
Defined.

(** ** Allocation and release *)

Section LifecycleFacts.

Lemma addresses_app (l l' : registry) :
  addresses (l ++ l') = addresses l ++ addresses l'.
Proof. apply map_app. Qed.

Lemma list_delete_absent (l : registry) (a : Z) :
  ~ In a (addresses l) -> list_delete a l = Undefined.
Proof.
  induction l as [|[b n] l IH]; simpl; intros H; [reflexivity|].
  destruct (Z.eqb_spec b a) as [->|_]; [exfalso; auto|].
  rewrite IH by auto. reflexivity.
Qed.

Lemma list_delete_present (pre post : registry) (a : Z) (nd : inode) :
  ~ In a (addresses pre) ->
  list_delete a (pre ++ (a, nd) :: post) = Ok (pre ++ post).
Proof.
  induction pre as [|[b n] pre IH]; simpl; intros H.
  - rewrite Z.eqb_refl. reflexivity.
  - destruct (Z.eqb_spec b a) as [->|_]; [exfalso; auto|].
    rewrite IH by auto. reflexivity.
Qed.

Lemma list_delete_incl (l l' : registry) (a : Z) (x : Z * inode) :
  list_delete a l = Ok l' -> In x l' -> In x l.
Proof.
  revert l'. induction l as [|[b n] l IH]; simpl; intros l'; [discriminate|].
  destruct (b =? a).
  - intros E. injection E as <-. auto.
  - destruct (list_delete a l) as [r|]; [|discriminate]. cbn [obind].
    intros E. injection E as <-. simpl. intros [H|H]; [auto|].
    right. apply (IH r eq_refl H).
Qed.

Lemma list_delete_map_nodup {A : Type} (f : Z * inode -> A)
    (l l' : registry) (a : Z) :
  list_delete a l = Ok l' -> NoDup (map f l) -> NoDup (map f l').
Proof.
  revert l'. induction l as [|[b n] l IH]; simpl; intros l'; [discriminate|].
  destruct (b =? a).
  - intros E H. injection E as <-. inversion H; assumption.
  - destruct (list_delete a l) as [r|] eqn:Er; [|discriminate]. cbn [obind].
    intros E H. injection E as <-. inversion H as [|x m Hx Hm]; subst.
    simpl. constructor; [|apply (IH r eq_refl Hm)].
    intros Hin. apply Hx. apply in_map_iff in Hin. destruct Hin as (y & Ey & Hy).
    apply in_map_iff. exists y. split; [exact Ey|].
    apply (list_delete_incl l r a y Er Hy).
Qed.

Lemma list_delete_deref_other (l l' : registry) (a b : Z) :
  list_delete a l = Ok l' -> b <> a -> deref l' b = deref l b.
Proof.
  intros E N. revert l' E.
  induction l as [|[c n] l IH]; simpl; intros l'; [discriminate|].
  destruct (Z.eqb_spec c a) as [->|_].
  - intros E. injection E as <-.
    destruct (Z.eqb_spec a b) as [E|_]; [congruence|reflexivity].
  - destruct (list_delete a l) as [r|]; [|discriminate]. cbn [obind].
    intros E. injection E as <-. simpl. rewrite (IH r eq_refl). reflexivity.
Qed.

Lemma list_delete_gone (l l' : registry) (a : Z) :
  NoDup (addresses l) -> list_delete a l = Ok l' -> ~ In a (addresses l').
Proof.
  revert l'. induction l as [|[b n] l IH]; simpl; intros l' H; [discriminate|].
  inversion H as [|x m Hx Hm]; subst.
  destruct (Z.eqb_spec b a) as [->|N].
  - intros E. injection E as <-. exact Hx.
  - destruct (list_delete a l) as [r|]; [|discriminate]. cbn [obind].
    intros E. injection E as <-. simpl.
    intros [E|Hin]; [contradiction|]. exact (IH r Hm eq_refl Hin).
Qed.

Lemma lookup_from_app_hit (l l' : registry) (dev b : Z) :
  lookup_from l dev NULL = Ptr b -> lookup_from (l ++ l') dev NULL = Ptr b.
Proof.
  intros H. destruct (lookup_from_hit l dev b H) as (pre & nd & post & -> & Hp & Hn).
  rewrite <- app_assoc. simpl. apply lookup_from_first; assumption.
Qed.

End LifecycleFacts.

(** X15: an allocation on the initialised list that gets a fresh
    address, with the counter below [INT_MAX], appends one node to the
    registry and changes nothing else in it: the new node has the old value
    of the counter as its sequence number, every other address still leads
    to the node it led to, every identifier that [devfs_lookup]'s scan
    found is still found at the same node by both scans, and the counter is
    one more.  When the allocator returns null, nothing changes at all. *)
Theorem alloc_appends (a : Z) (fs : devfs) :
  linked fs = true ->
  ino fs < INT_MAX ->
  ~ In a (addresses (devfs_nodes fs)) ->
  (exists nd fs',
     devfs_sb_inode_alloc (Some a) fs = Ok (Ptr a, fs')
     /\ devfs_nodes fs' = devfs_nodes fs ++ [(a, nd)]
     /\ i_ino nd = ino fs
     /\ ino fs' = ino fs + 1
     /\ devfs_sb fs' = devfs_sb fs
     /\ linked fs' = true
     /\ deref (devfs_nodes fs') a = Some nd
     /\ (forall b, b <> a ->
                   deref (devfs_nodes fs') b = deref (devfs_nodes fs) b)
     /\ (forall dev b,
           lookup_from (devfs_nodes fs) dev NULL = Ptr b ->
           lookup_from (devfs_nodes fs') dev NULL = Ptr b
           /\ dev_to_inode (devfs_nodes fs') dev = Ptr b))
  /\ devfs_sb_inode_alloc None fs = Ok (NULL, fs).
Proof.
  intros Hl Hc Hf. split; [|reflexivity].
  exists (inode_init 0 (ino fs)).
  eexists. unfold devfs_sb_inode_alloc.
  destruct (Z.ltb_spec (ino fs) INT_MAX) as [_|]; [|lia]. rewrite Hl.
  split; [reflexivity|]. cbn [devfs_nodes ino devfs_sb linked].
  repeat split.
  - rewrite deref_app, (deref_none _ a Hf). simpl. rewrite Z.eqb_refl. reflexivity.
  - intros b N. rewrite deref_app. destruct (deref (devfs_nodes fs) b); [reflexivity|].
    simpl. destruct (Z.eqb_spec a b) as [E|_]; [congruence|reflexivity].
  - apply lookup_from_app_hit. assumption.
  - apply lookup_hit_dev_to_inode, lookup_from_app_hit. assumption.
Qed.

Lemma alloc_appends_witness :
  exists fs',
    devfs_sb_inode_alloc (Some 200)
      {| devfs_nodes := [(100, mk_inode 0 0x0300 0x4000)]; ino := 1;
         devfs_sb := None; linked := true |}
    = Ok (Ptr 200, fs')
    /\ devfs_nodes fs' = [(100, mk_inode 0 0x0300 0x4000); (200, mk_inode 1 0 0)].
Proof.
  destruct (alloc_appends 200
              {| devfs_nodes := [(100, mk_inode 0 0x0300 0x4000)]; ino := 1;
                 devfs_sb := None; linked := true |})
    as [(nd & fs' & E & N & I & _) _].
  - reflexivity.
  - vm_compute. reflexivity.
  - simpl. intuition discriminate.
  - exists fs'. split; [exact E|].
    vm_compute in E. injection E as <-. reflexivity.
Defined.

(** X16: allocating a node at a fresh address on the initialised list
    and freeing it again gives back the registry as it was, while the
    counter stays one higher: a released sequence number is not given
    again. *)
Theorem alloc_then_free (a : Z) (fs : devfs) :
  linked fs = true ->
  ino fs < INT_MAX ->
  ~ In a (addresses (devfs_nodes fs)) ->
  exists fs1 fs2,
    devfs_sb_inode_alloc (Some a) fs = Ok (Ptr a, fs1)
    /\ devfs_sb_inode_free a fs1 = Ok fs2
    /\ devfs_nodes fs2 = devfs_nodes fs
    /\ ino fs2 = ino fs + 1
    /\ devfs_sb fs2 = devfs_sb fs.
Proof.
  intros Hl Hc Hf. unfold devfs_sb_inode_alloc.
  destruct (Z.ltb_spec (ino fs) INT_MAX) as [_|]; [|lia]. rewrite Hl.
  eexists. eexists. split; [reflexivity|].
  unfold devfs_sb_inode_free. cbn [devfs_nodes ino devfs_sb linked].
  rewrite (list_delete_tail _ a _ Hf). cbn [obind]. repeat split.
Qed.

Lemma alloc_then_free_witness :
  exists fs1 fs2,
    devfs_sb_inode_alloc (Some 200)
      {| devfs_nodes := [(100, mk_inode 0 0x0300 0x4000)]; ino := 1;
         devfs_sb := None; linked := true |}
    = Ok (Ptr 200, fs1)
    /\ devfs_sb_inode_free 200 fs1 = Ok fs2
    /\ devfs_nodes fs2 = [(100, mk_inode 0 0x0300 0x4000)]
    /\ ino fs2 = 2.
Proof.
  destruct (alloc_then_free 200
              {| devfs_nodes := [(100, mk_inode 0 0x0300 0x4000)]; ino := 1;
                 devfs_sb := None; linked := true |})
    as (fs1 & fs2 & E & F & N & I & _).
  - reflexivity.
  - vm_compute. reflexivity.
  - simpl. intuition discriminate.
  - exists fs1, fs2. auto.
Defined.

(** X17: on the initialised list, in a registry whose nodes have
    distinct addresses, a free of a node of the registry unlinks that node
    and no other: its address leads to no node afterwards, every other
    address leads to the node it led to, the nodes left keep their order
    and distinct addresses, and the counter is not changed.  A free at an
    address that is not in the registry is undefined: the code unlinks and
    releases whatever it is given. *)
Theorem free_unlinks_one (a : Z) (fs : devfs) :
  linked fs = true ->
  NoDup (addresses (devfs_nodes fs)) ->
  (forall pre nd post,
     devfs_nodes fs = pre ++ (a, nd) :: post ->
     exists fs',
       devfs_sb_inode_free a fs = Ok fs'
       /\ devfs_nodes fs' = pre ++ post
       /\ deref (devfs_nodes fs') a = None
       /\ (forall b, b <> a ->
                     deref (devfs_nodes fs') b = deref (devfs_nodes fs) b)
       /\ NoDup (addresses (devfs_nodes fs'))
       /\ ino fs' = ino fs
       /\ devfs_sb fs' = devfs_sb fs)
  /\ (~ In a (addresses (devfs_nodes fs)) ->
      devfs_sb_inode_free a fs = Undefined).
Proof.
  intros Hl Hn. split.
  - intros pre nd post E.
    assert (Hpre : ~ In a (addresses pre)).
    { rewrite E, addresses_app in Hn. simpl in Hn.
      apply NoDup_remove_2 in Hn. intros H. apply Hn. apply in_or_app. auto. }
    assert (Ed : list_delete a (devfs_nodes fs) = Ok (pre ++ post))
      by (rewrite E; apply list_delete_present; exact Hpre).
    unfold devfs_sb_inode_free. rewrite Hl, Ed. cbn [obind].
    eexists. split; [reflexivity|]. cbn [devfs_nodes ino devfs_sb].
    split; [reflexivity|].
    split; [apply deref_none, (list_delete_gone _ _ a Hn Ed)|].
    split; [intros b N; apply (list_delete_deref_other _ _ a b Ed N)|].
    split; [apply (list_delete_map_nodup fst _ _ a Ed Hn)|].
    split; reflexivity.
  - intros Hno. unfold devfs_sb_inode_free.
    rewrite Hl, (list_delete_absent _ a Hno). reflexivity.
Qed.

Lemma free_unlinks_one_witness :
  let fs := {| devfs_nodes := [(100, mk_inode 0 0x0300 0x4000);
                               (200, mk_inode 1 0x0105 0);
                               (300, mk_inode 2 0x0401 0)];
               ino := 3; devfs_sb := None; linked := true |} in
  (exists fs',
     devfs_sb_inode_free 200 fs = Ok fs'
     /\ devfs_nodes fs' = [(100, mk_inode 0 0x0300 0x4000); (300, mk_inode 2 0x0401 0)])
  /\ devfs_sb_inode_free 400 fs = Undefined.
Proof.
  intros fs.
  destruct (free_unlinks_one 200 fs) as [A _].
  - reflexivity.
  - simpl. repeat (constructor; [simpl; intuition discriminate|]). constructor.
  - destruct (free_unlinks_one 400 fs) as [_ B].
    + reflexivity.
    + simpl. repeat (constructor; [simpl; intuition discriminate|]). constructor.
    + split.
      * destruct (A [(100, mk_inode 0 0x0300 0x4000)] (mk_inode 1 0x0105 0)
                    [(300, mk_inode 2 0x0401 0)] eq_refl)
          as (fs' & E & N & _).
        exists fs'. split; [exact E|exact N].
      * apply B. simpl. intuition discriminate.
Defined.

Section NumberingFacts.

Context {P : Platform}.

Lemma numbered_alloc (a : Z) (fs fs' : devfs) (p : pointer) :
  numbered fs -> devfs_sb_inode_alloc (Some a) fs = Ok (p, fs') -> numbered fs'.
Proof.
  intros [Hn Hb]. unfold devfs_sb_inode_alloc.
  destruct (ino fs <? INT_MAX); [|discriminate].
  destruct (linked fs); [|discriminate].
  intros E. injection E as _ <-. unfold numbered, live_inos in *.
  cbn [devfs_nodes ino]. rewrite map_app. simpl. split.
  - apply NoDup_app; [exact Hn|repeat constructor; simpl; tauto|].
    intros n Hin [E|[]]. subst n.
    rewrite Forall_forall in Hb. specialize (Hb _ Hin). lia.
  - apply Forall_app. split.
    + eapply Forall_impl; [|exact Hb]. simpl. intros n Hn'. lia.
    + repeat constructor. lia.
Qed.

Lemma numbered_free (a : Z) (fs fs' : devfs) :
  numbered fs -> devfs_sb_inode_free a fs = Ok fs' -> numbered fs'.
Proof.
  intros [Hn Hb]. unfold devfs_sb_inode_free.
  destruct (linked fs); [|discriminate].
  destruct (list_delete a (devfs_nodes fs)) as [r|] eqn:Er; [|discriminate].
  cbn [obind]. intros E. injection E as <-. unfold numbered, live_inos in *.
  cbn [devfs_nodes ino]. split.
  - apply (list_delete_map_nodup _ _ _ a Er Hn).
  - rewrite Forall_forall in *. intros n Hin.
    apply in_map_iff in Hin. destruct Hin as (x & <- & Hx).
    apply Hb. apply (in_map (fun y : Z * inode => i_ino (snd y))).
    apply (list_delete_incl _ _ a x Er Hx).
Qed.

Lemma numbered_create (dev : Z) (kmalloc : option Z) (fs fs' : devfs) :
  devfs_sb_create dev kmalloc fs = Ok fs' -> numbered fs'.
Proof.
  intros E. destruct (create_returned dev kmalloc fs fs' E) as (a & _ & _ & ->).
  unfold numbered, live_inos. simpl. split.
  - repeat constructor. simpl. tauto.
  - repeat constructor. lia.
Qed.

Lemma numbered_serve (reqs : list request) :
  forall fs fs' given,
    numbered fs -> serve reqs fs = Ok (fs', given) -> numbered fs'.
Proof.
  induction reqs as [|[dev k|[a|]|a] reqs IH]; intros fs fs' given Hn.
  - cbn [serve]. intros E. injection E as <- _. exact Hn.
  - rewrite serve_mount.
    destruct (devfs_sb_create dev k fs) as [fs1|] eqn:Ec; [|discriminate].
    cbn [obind].
    destruct (serve reqs fs1) as [[fs2 g]|] eqn:Es; [|discriminate].
    cbn [obind]. intros E. injection E as <- _.
    apply (IH fs1 fs2 g); [|exact Es]. apply (numbered_create dev k fs fs1 Ec).
  - rewrite serve_alloc.
    destruct (devfs_sb_inode_alloc (Some a) fs) as [[p fs1]|] eqn:Ea; [|discriminate].
    cbn [obind].
    destruct (serve reqs fs1) as [[fs2 g]|] eqn:Es; [|discriminate].
    cbn [obind]. intros E. injection E as <- _.
    apply (IH fs1 fs2 g); [|exact Es]. apply (numbered_alloc a fs fs1 p Hn Ea).
  - rewrite serve_alloc, alloc_failure. cbn [obind].
    destruct (serve reqs fs) as [[fs2 g]|] eqn:Es; [|discriminate].
    cbn [obind]. intros E. injection E as <- _. apply (IH fs fs2 g Hn Es).
  - rewrite serve_free.
    destruct (devfs_sb_inode_free a fs) as [fs1|] eqn:Ef; [|discriminate].
    cbn [obind]. intros E.
    apply (IH _ fs' given (numbered_free a fs fs1 Hn Ef) E).
Qed.

End NumberingFacts.

(** X18: the registry keeps its numbering through every history of
    mounts, allocations and frees that runs to its end: if the live nodes
    have pairwise distinct sequence numbers, all below the counter, they
    still have afterwards.  The state before the mount has it (no node is
    live), so in a run from there no two live nodes ever share a sequence
    number, also across a second mount, which keeps the counter. *)
Theorem numbering_is_kept
    {P : Platform} (reqs : list request) (fs fs' : devfs) (given : list Z) :
  numbered fs ->
  serve reqs fs = Ok (fs', given) ->
  numbered fs' /\ numbered boot.
Proof.
  intros Hn E. split.
  - apply (numbered_serve reqs fs fs' given Hn E).
  - unfold numbered, boot. simpl. split; constructor.
Qed.

Lemma numbering_is_kept_witness :
  exists fs',
    serve (P := ia32)
      [Mount 0x0300 (Some 100); Alloc (Some 200); Alloc (Some 300); Free 200;
       Alloc (Some 200); Mount 0x0300 (Some 400); Alloc (Some 500)] boot
    = Ok (fs', [0; 1; 2; 3; 4; 5])
    /\ live_inos (devfs_nodes fs') = [4; 5]
    /\ numbered fs'.
Proof.
  destruct (serve (P := ia32)
              [Mount 0x0300 (Some 100); Alloc (Some 200); Alloc (Some 300);
               Free 200; Alloc (Some 200); Mount 0x0300 (Some 400);
               Alloc (Some 500)] boot) as [[fs' given]|] eqn:E;
    [|vm_compute in E; discriminate E].
  assert (B : numbered boot) by (unfold numbered, boot; simpl; split; constructor).
  pose proof (proj1 (numbering_is_kept (P := ia32) _ boot fs' given B E)) as Hn.
  vm_compute in E. injection E as E1 E2. subst given fs'.
  eexists. split; [reflexivity|]. split; [reflexivity|exact Hn].
Defined.

(** ** Mounting in any state *)

(** X19: [devfs_sb_create], in whatever state it is called with the
    counter below [INT_MAX], leaves a registry that holds the new root and
    nothing else: the nodes that were in the registry are dropped from it
    without being freed, the root takes the current value of the counter
    (0 only on the first call), and the root entry is named "/".  When the
    allocator returns null the function stores through the null
    pointer. *)
Theorem devfs_sb_create_resets
    {P : Platform} (dev a : Z) (fs : devfs) :
  ino fs < INT_MAX ->
  devfs_sb_create dev (Some a) fs
  = Ok {| devfs_nodes := [(a, {| i_ino := ino fs; i_dev := dev; i_mode := S_IFDIR |})];
          ino := ino fs + 1;
          devfs_sb := Some {| rd_name := lit "/"; rd_inode := a |};
          linked := true |}
  /\ devfs_sb_create dev None fs = Undefined.
Proof.
  intros Hc. split; [|reflexivity].
  unfold devfs_sb_create, devfs_sb_inode_alloc. cbn [ino devfs_nodes devfs_sb linked].
  destruct (Z.ltb_spec (ino fs) INT_MAX) as [_|]; [|lia].
  cbn. rewrite Z.eqb_refl. cbn. rewrite Z.eqb_refl. reflexivity.
Qed.

Lemma devfs_sb_create_resets_witness :
  devfs_sb_create (P := ia32) 0x0300 (Some 500)
    {| devfs_nodes := [(100, mk_inode 0 0x0300 0x4000); (200, mk_inode 1 0x0105 0)];
       ino := 2; devfs_sb := Some (mk_root (lit "/") 100); linked := true |}
  = Ok {| devfs_nodes := [(500, mk_inode 2 0x0300 0x4000)]; ino := 3;
          devfs_sb := Some (mk_root (lit "/") 500); linked := true |}.
Proof.
  refine (proj1 (devfs_sb_create_resets (P := ia32) 0x0300 500
                   {| devfs_nodes := [(100, mk_inode 0 0x0300 0x4000);
                                      (200, mk_inode 1 0x0105 0)];
                      ino := 2; devfs_sb := Some (mk_root (lit "/") 100);
                      linked := true |} _)).
  vm_compute. reflexivity.
Defined.

(** ** Directory iteration beyond one walk *)

Section CursorFacts.

Context {P : Platform}.

Lemma strncpy_length (n : nat) (s : cstring) : length (strncpy n s) = n.
Proof.
  unfold strncpy. rewrite length_firstn, length_app, repeat_length. lia.
Qed.

Lemma strncpy_long (n : nat) (s : cstring) :
  (n <= length s)%nat -> strncpy n s = firstn n s.
Proof.
  intros H. unfold strncpy. rewrite firstn_app.
  replace (n - length s)%nat with 0%nat by lia. simpl. apply app_nil_r.
Qed.

(** A call with an index above 2 and the cursor at the head of the list
    of [dir] returns -1 and moves nothing. *)
Lemma readdir_at_end (T : dirs) (dir : Z) (i : Z) (dent : dirent) :
  2 < i ->
  devfs_dentry_readdir T dir i dent (Some (dir, length (T dir)))
  = Ok (-1, dent, Some (dir, length (T dir))).
Proof.
  intros Hi. unfold devfs_dentry_readdir.
  destruct (Z.eqb_spec i 0); [lia|]. destruct (Z.eqb_spec i 1); [lia|].
  destruct (Z.eqb_spec i 2); [lia|].
  rewrite Z.eqb_refl, Nat.eqb_refl. reflexivity.
Qed.

Lemma listing_end (T : dirs) (dir : Z) (m : nat) :
  forall (i : Z) (dent : dirent),
    2 < i ->
    listing T dir i m dent (Some (dir, length (T dir)))
    = Ok (repeat (-1, dent) m).
Proof.
  induction m as [|m IH]; intros i dent Hi; [reflexivity|].
  rewrite listing_step, readdir_at_end by exact Hi. cbn [obind].
  rewrite IH by lia. reflexivity.
Qed.

Lemma listing_rest_more (T : dirs) (dir : Z) (m : nat) (rest : list child) :
  forall (pre : list child) (i : Z) (dent : dirent) (cur : option link),
    T dir = pre ++ rest ->
    2 <= i ->
    (i = 2 -> pre = []) ->
    (2 < i -> cur = Some (dir, length pre)) ->
    listing T dir i (length rest + S m) dent cur
    = Ok (map (fun c => (0, entry_of c)) rest
          ++ repeat (-1, last (map entry_of rest) dent) (S m)).
Proof.
  induction rest as [|c rest IH]; intros pre i dent cur HT Hi H2 Hgt.
  - rewrite app_nil_r in HT. cbn [length Nat.add map app last].
    rewrite listing_step. unfold devfs_dentry_readdir.
    destruct (Z.eqb_spec i 0) as [?|_]; [lia|].
    destruct (Z.eqb_spec i 1) as [?|_]; [lia|].
    assert (Hc : (if i =? 2 then Some (dir, 0%nat) else cur)
                 = Some (dir, length pre)).
    { destruct (Z.eqb_spec i 2) as [E|N].
      - rewrite (H2 E). reflexivity.
      - apply Hgt. lia. }
    rewrite Hc, HT, Z.eqb_refl, Nat.eqb_refl. cbn [andb deliver obind].
    rewrite <- HT, listing_end by lia. reflexivity.
  - cbn [length Nat.add]. rewrite listing_step. unfold devfs_dentry_readdir.
    destruct (Z.eqb_spec i 0) as [?|_]; [lia|].
    destruct (Z.eqb_spec i 1) as [?|_]; [lia|].
    assert (Hc : (if i =? 2 then Some (dir, 0%nat) else cur)
                 = Some (dir, length pre)).
    { destruct (Z.eqb_spec i 2) as [E|N].
      - rewrite (H2 E). reflexivity.
      - apply Hgt. lia. }
    rewrite Hc, HT, Z.eqb_refl.
    destruct (Nat.eqb_spec (length pre) (length (pre ++ c :: rest))) as [E|_].
    { rewrite length_app in E. simpl in E. lia. }
    rewrite nth_error_app2 by lia. rewrite Nat.sub_diag.
    cbn [andb nth_error deliver obind]. cbn [d_ino].
    change (mk_dirent (c_ino c) (strncpy D_NAME_LEN (c_name c))) with (entry_of c).
    rewrite (IH (pre ++ [c]) (i + 1) (entry_of c) (Some (dir, S (length pre)))).
    + cbn [obind map app]. rewrite last_cons_default. reflexivity.
    + rewrite HT, <- app_assoc. reflexivity.
    + lia.
    + intros E. lia.
    + intros _. rewrite length_app. simpl. f_equal. f_equal. lia.
Qed.

End CursorFacts.

(** X20: a walk that goes on after the last child keeps getting -1:
    the calls with the indices 2, 3, ... give the children in order and
    then -1 at every further call, with the entry of the caller left as
    the last child set it. *)
Theorem readdir_end_is_stable
    {P : Platform} (T : dirs) (dir : Z) (m : nat) (dent : dirent)
    (cur : option link) :
  listing T dir 2 (length (T dir) + S m) dent cur
  = Ok (map (fun c => (0, entry_of c)) (T dir)
        ++ repeat (-1, last (map entry_of (T dir)) dent) (S m)).
Proof.
  apply (listing_rest_more T dir m (T dir) []); try reflexivity; lia.
Qed.

(** X21: the cursor is one for all directories.  A call with an index
    above 2 before any call with index 2 dereferences the null cursor; and
    when a walk of a second directory is started in the middle of a walk of
    a first one, the next call for the first directory returns the second
    child of the second directory. *)
Theorem readdir_cursor_is_shared
    {P : Platform} (T : dirs) (dirA dirB : Z) (dent : dirent)
    (cur : option link) (a0 b0 b1 : child) (restA restB : list child) :
  (forall i dir, 2 < i -> devfs_dentry_readdir T dir i dent None = Undefined)
  /\ (dirA <> dirB ->
      T dirA = a0 :: restA ->
      T dirB = b0 :: b1 :: restB ->
      ('(_, d1, c1) <- devfs_dentry_readdir T dirA 2 dent cur ;;
       '(_, d2, c2) <- devfs_dentry_readdir T dirB 2 d1 c1 ;;
       devfs_dentry_readdir T dirA 3 d2 c2)
      = Ok (0, entry_of b1, Some (dirB, 2%nat))).
Proof.
  split.
  - intros i dir Hi. unfold devfs_dentry_readdir.
    destruct (Z.eqb_spec i 0); [lia|]. destruct (Z.eqb_spec i 1); [lia|].
    destruct (Z.eqb_spec i 2); [lia|]. reflexivity.
  - intros Hne HA HB. unfold devfs_dentry_readdir.
    cbn [Z.eqb Pos.eqb]. rewrite HA, HB, !Z.eqb_refl.
    cbn [length Nat.eqb andb nth_error deliver obind d_ino d_name].
    destruct (Z.eqb_spec dirB dirA) as [E|_]; [congruence|].
    cbn [andb nth_error deliver]. rewrite HB. reflexivity.
Qed.

Lemma readdir_cursor_is_shared_witness :
  let T := fun d : Z =>
             if d =? 1 then [mk_child (lit "zero") 1; mk_child (lit "tty1") 2]
             else if d =? 2 then [mk_child (lit "a") 7; mk_child (lit "b") 8]
             else [] in
  ('(_, d1, c1) <- devfs_dentry_readdir (P := ia32) T 1 2 (mk_dirent 0 []) None ;;
   '(_, d2, c2) <- devfs_dentry_readdir (P := ia32) T 2 2 d1 c1 ;;
   devfs_dentry_readdir (P := ia32) T 1 3 d2 c2)
  = Ok (0, entry_of (P := ia32) (mk_child (lit "b") 8), Some (2, 2%nat)).
Proof.
  intros T.
  refine (proj2 (readdir_cursor_is_shared (P := ia32) T 1 2 (mk_dirent 0 []) None
                   (mk_child (lit "zero") 1) (mk_child (lit "a") 7)
                   (mk_child (lit "b") 8) [mk_child (lit "tty1") 2] []) _ _ _).
  - discriminate.
  - reflexivity.
  - reflexivity.
Defined.

(** X22: a call returns 0 or -1.  On -1 the entry of the caller is
    untouched.  On 0 the name field holds exactly [D_NAME_LEN] characters.
    A call that stands at a child of the directory (the first child at
    index 2, the child under the cursor at a later index) returns 0 with
    the number of that child and its name copied by [strncpy]: a name of
    [D_NAME_LEN] characters or more is cut to its first [D_NAME_LEN]
    characters and left without a terminator, a shorter one is read back
    unchanged. *)
Theorem readdir_name_field
    {P : Platform} (T : dirs) (dir : Z) (i : Z) (dent dent' : dirent)
    (cur cur' : option link) (res : Z) :
  devfs_dentry_readdir T dir i dent cur = Ok (res, dent', cur') ->
  (res = 0 \/ res = -1)
  /\ (res = -1 -> dent' = dent)
  /\ (res = 0 -> length (d_name dent') = D_NAME_LEN)
  /\ (forall k c,
        2 <= i ->
        (if i =? 2 then Some (dir, 0%nat) else cur) = Some (dir, k) ->
        nth_error (T dir) k = Some c ->
        res = 0
        /\ d_ino dent' = c_ino c
        /\ d_name dent' = strncpy D_NAME_LEN (c_name c)
        /\ ((D_NAME_LEN <= length (c_name c))%nat ->
            d_name dent' = firstn D_NAME_LEN (c_name c)
            /\ (~ In NUL (c_name c) -> ~ In NUL (d_name dent')))
        /\ ((length (c_name c) < D_NAME_LEN)%nat -> ~ In NUL (c_name c) ->
            read_array (d_name dent') = c_name c)).
Proof.
  unfold devfs_dentry_readdir.
  destruct (Z.eqb_spec i 0) as [E0|N0].
  { cbn [deliver]. intros E. injection E as <- <- <-. cbn [d_name].
    split; [left; reflexivity|]. split; [discriminate|].
    split; [intros _; apply strncpy_length|]. intros; lia. }
  destruct (Z.eqb_spec i 1) as [E1|N1].
  { cbn [deliver]. intros E. injection E as <- <- <-. cbn [d_name].
    split; [left; reflexivity|]. split; [discriminate|].
    split; [intros _; apply strncpy_length|]. intros; lia. }
  destruct (if i =? 2 then Some (dir, 0%nat) else cur) as [[d k]|] eqn:Ec;
    [|discriminate].
  destruct ((d =? dir) && (k =? length (T dir))%nat) eqn:Eh.
  - cbn [deliver]. intros E. injection E as <- <- <-.
    split; [right; reflexivity|]. split; [reflexivity|].
    split; [discriminate|].
    intros k0 c Hi Hcur Hnth. exfalso.
    injection Hcur as <- <-.
    apply andb_true_iff in Eh. destruct Eh as [_ Ek].
    apply Nat.eqb_eq in Ek. subst k.
    assert (Hn : nth_error (T d) (length (T d)) = None)
      by (apply nth_error_None; lia).
    rewrite Hn in Hnth. discriminate.
  - destruct (nth_error (T d) k) as [c0|] eqn:En; [|discriminate].
    cbn [deliver]. intros E. injection E as <- <- <-. cbn [d_name d_ino].
    split; [left; reflexivity|]. split; [discriminate|].
    split; [intros _; apply strncpy_length|].
    intros k0 c Hi Hcur Hnth.
    injection Hcur as <- <-. rewrite Hnth in En. injection En as <-.
    split; [reflexivity|]. split; [reflexivity|]. split; [reflexivity|]. split.
    + intros Hlen. rewrite strncpy_long by exact Hlen.
      split; [reflexivity|]. intros Hnul Hin. apply Hnul.
      rewrite <- (firstn_skipn D_NAME_LEN (c_name c)).
      apply in_or_app. left. exact Hin.
    + intros Hlen Hnul. apply read_array_strncpy; assumption.
Qed.

Lemma readdir_name_field_witness :
  let long := repeat "x"%char 300 in
  let T := fun d : Z => if d =? 1 then [mk_child long 9] else [] in
  devfs_dentry_readdir (P := ia32) T 1 2 (mk_dirent 0 []) None
  = Ok (0, mk_dirent 9 (repeat "x"%char 256), Some (1, 1%nat))
  /\ ~ In NUL (repeat "x"%char 256).
Proof.
  intros long T.
  assert (E : devfs_dentry_readdir (P := ia32) T 1 2 (mk_dirent 0 []) None
              = Ok (0, mk_dirent 9 (repeat "x"%char 256), Some (1, 1%nat)))
    by (vm_compute; reflexivity).
  split; [exact E|].
  destruct (readdir_name_field (P := ia32) T 1 2 (mk_dirent 0 [])
              (mk_dirent 9 (repeat "x"%char 256)) None (Some (1, 1%nat)) 0 E)
    as (_ & _ & _ & H).
  destruct (H 0%nat (mk_child long 9)) as (_ & _ & _ & L & _).
  - lia.
  - reflexivity.
  - reflexivity.
  - destruct L as [_ L].
    + vm_compute. repeat constructor.
    + apply L. intros Hin. apply repeat_spec in Hin. discriminate Hin.
Defined.
